(** * text_to_video: the word-timing, background-cycling and assembly pipeline

    A shallow embedding of [text_to_video] as written in [src/app.py] and
    [src/api/app.py], and the properties of its synchronisation loop; then of
    [allowed_file] and of the [upload_file] handlers that call them.

    Python values are modelled as follows.
    - [str]: a [string]; every character is one code point below 256.
    - [int]: [Z] (unbounded, as in Python).
    - [float]: the primitive binary64 [float], whose [+] and [/] are the
      IEEE-754 operations Python performs.
    - exceptions: [result], with the state of the world at the raise.
    - the libraries the function calls (PIL, gTTS, pydub, moviepy, os): a
      record of [collaborators] that fixes, per argument, whether a call
      completes, what it measures and what a failing video writer leaves on
      disk; every call is logged in a trace. *)

From Stdlib Require Import ZArith NArith List String Ascii Bool Lia.
From Stdlib Require Import PrimFloat SpecFloat FloatOps.
Import ListNotations.
Open Scope string_scope.
Open Scope Z_scope.

(** ** Python numbers *)

(** A Python [int] as a binary number: mantissa [|z|], of any size, and
    exponent 0. *)
Definition exact_int (z : Z) : spec_float :=
  match z with
  | Z0 => S754_zero false
  | Zpos m => S754_finite false m 0
  | Zneg m => S754_finite true m 0
  end.

(** [float(z)] for a Python [int]: the binary64 nearest to [z], ties to
    even; exact for [|z| <= 2^53]. An [int] beyond the binary64 range (more
    than 1023 bits), for which Python raises [OverflowError], comes out as
    an infinity. *)
Definition float_of_int (z : Z) : float :=
  SF2Prim (binary_normalize prec emax z 0 false).

(** The value of [a / b] on two [int]s, [b] not zero: Python rounds the
    exact quotient once, to the nearest binary64 (ties to even), whatever
    the size of [a] and [b]. A quotient beyond the binary64 range, for which
    Python raises [OverflowError], comes out as an infinity. *)
Definition int_quotient (a b : Z) : float :=
  SF2Prim (SFdiv prec emax (exact_int a) (exact_int b)).

(** [x >= t] for a [float] [x] and an [int] [t]. Python compares the two
    exactly, without rounding [t] to a float. *)
Definition float_ge_int (x : float) (t : Z) : bool :=
  match Prim2SF x with
  | S754_nan => false
  | S754_infinity s => negb s
  | S754_zero _ => t <=? 0
  | S754_finite s m e =>
      let v := if s then Z.neg m else Z.pos m in
      if 0 <=? e then t <=? v * 2 ^ e else t * 2 ^ (- e) <=? v
  end.

(** ** Exceptions *)

Inductive exn : Type :=
| FileNotFoundError   (* raise FileNotFoundError(...), src/api/app.py:46 *)
| TruetypeError       (* raised inside ImageFont.truetype *)
| SpeechError         (* raised inside gTTS(...) or tts.save *)
| AudioError          (* raised inside AudioSegment.from_file *)
| ZeroDivisionError   (* [/ len(words)] and [% len(background_images)] by zero *)
| IndexError          (* list index out of range *)
| ImageError          (* raised inside Image.open(...).resize *)
| MuxError            (* raised inside AudioFileClip, ImageSequenceClip or write_videofile *)
| RemoveError.        (* raised inside os.remove *)

Inductive result (A : Type) : Type :=
| Ok (a : A)
| Raise (e : exn).
Arguments Ok {A} a.
Arguments Raise {A} e.

(** [xs[i]] on a Python list, for [i >= 0]. *)
Definition index {A : Type} (xs : list A) (i : nat) : result A :=
  match nth_error xs i with
  | Some x => Ok x
  | None => Raise IndexError
  end.

(** [a / b] on two [int]s (true division). *)
Definition truediv_int (a b : Z) : result float :=
  if b =? 0 then Raise ZeroDivisionError
  else Ok (int_quotient a b).

(** [x / n] for a [float] [x] and an [int] [n]. *)
Definition truediv (x : float) (n : Z) : result float :=
  if n =? 0 then Raise ZeroDivisionError
  else Ok (PrimFloat.div x (float_of_int n)).

(** ** [str.split()] *)

(** [str.isspace] on the code points below 256. *)
Definition isspace (c : ascii) : bool :=
  let n := N_of_ascii c in
  (((9 <=? n) && (n <=? 13)) || ((28 <=? n) && (n <=? 32))
   || (n =? 133) || (n =? 160))%N.

(** [split_from word s]: the words of [s], [word] being the characters of
    the word in progress. *)
Fixpoint split_from (word : string) (s : string) : list string :=
  match s with
  | EmptyString => match word with EmptyString => [] | _ => [word] end
  | String c rest =>
      if isspace c then
        match word with
        | EmptyString => split_from EmptyString rest
        | _ => word :: split_from EmptyString rest
        end
      else split_from (word ++ String c EmptyString) rest
  end.

(** [text.split()]: maximal runs of non-whitespace, in order. *)
Definition split (text : string) : list string := split_from EmptyString text.

(** A text made of whitespace only (the empty text included). *)
Fixpoint blank (s : string) : bool :=
  match s with
  | EmptyString => true
  | String c rest => isspace c && blank rest
  end.

(** [os.path.join(a, b)] on POSIX paths. *)
Definition ends_with_slash (a : string) : bool :=
  match get (Nat.pred (String.length a)) a with
  | Some c => Ascii.eqb c "/"%char
  | None => false
  end.

Definition os_path_join (a b : string) : string :=
  match b with
  | String "/"%char _ => b
  | _ => if (String.eqb a "" || ends_with_slash a)%bool then a ++ b
         else a ++ "/" ++ b
  end.

(** ** Module-level constants *)

Record globals : Type := mkGlobals {
  TEXT_SPEED : Z;
  TEXT_COLOR : Z * Z * Z;
  FONT_SIZE : Z;
  TIMING_ADJUSTMENT : float;
  VIDEO_SIZE : Z * Z;
  BACKGROUND_INTERVALS : list Z;
  UPLOAD_FOLDER : string
}.

(** A rendered frame, [np.array(img)]: the pixels are those of the resized
    background [frame_background] with [frame_word] drawn on a copy of it. *)
Record frame : Type := mkFrame {
  frame_background : string;
  frame_size : Z * Z;
  frame_word : string;
  frame_position : float * float;
  frame_font : string * Z;
  frame_fill : Z * Z * Z
}.

(** ** The world: files and calls *)

Inductive event : Type :=
| EvTruetype (font_path : string) (size : Z)
| EvSpeech (text lang : string)
| EvSave (path : string)
| EvFromFile (path : string)
| EvOpenResize (path : string) (size : Z * Z)
| EvDrawText (f : frame)
| EvAudioFileClip (path : string)
| EvWriteVideofile (images : list frame) (durations : list float)
                   (fps : Z) (outputfile codec : string)
| EvRemove (path : string).

Record world : Type := mkWorld {
  fs : list string;      (* the paths that exist *)
  trace : list event     (* the library calls made, oldest first *)
}.

Record collaborators : Type := mkCollaborators {
  (* ImageFont.truetype(path, size) parses the existing file *)
  font_loads : string -> Z -> bool;
  (* fnt.getbbox(word) for the font (path, size) *)
  getbbox : string * Z -> string -> Z * Z * Z * Z;
  (* gTTS(text=text, lang=lang) accepts the text *)
  tts_accepts : string -> string -> bool;
  (* tts.save(path) of that speech completes *)
  tts_saves : string -> string -> bool;
  (* len(AudioSegment.from_file(..)) of the speech saved for (text, lang),
     in milliseconds; None when decoding raises *)
  audio_len : string -> string -> option Z;
  (* Image.open(path).resize(..) decodes the existing file *)
  image_loads : string -> bool;
  (* ImageSequenceClip(..), set_audio and write_videofile complete *)
  mux_writes : list frame -> list float -> string -> bool;
  (* the files a failing write_videofile(outputfile, ..) leaves behind:
     moviepy writes the sound track to a temporary file of its own
     (<stem>TEMP_MPY_wvf_snd.mp3, in the working directory) before it
     encodes the video, and removes it only once the video is written *)
  mux_leaves : string -> list string
}.

(** ** State and exception monad *)

Definition M (A : Type) : Type := world -> result A * world.

Definition ret {A : Type} (a : A) : M A := fun w => (Ok a, w).

Definition raise {A : Type} (e : exn) : M A := fun w => (Raise e, w).

Definition bind {A B : Type} (c : M A) (k : A -> M B) : M B :=
  fun w =>
    match c w with
    | (Ok a, w') => k a w'
    | (Raise e, w') => (Raise e, w')
    end.

Definition lift {A : Type} (r : result A) : M A := fun w => (r, w).

Declare Scope py_scope.
Delimit Scope py_scope with py.
Notation "x <- c ;; k" := (bind c (fun x => k))
  (at level 61, c at next level, right associativity) : py_scope.
Notation "' pat <- c ;; k" :=
  (bind c (fun x => match x with pat => k end))
  (at level 61, pat pattern, c at next level, right associativity) : py_scope.
Notation "c ;; k" := (bind c (fun _ => k))
  (at level 61, right associativity) : py_scope.
Open Scope py_scope.

Definition emit (e : event) : M unit :=
  fun w => (Ok tt, {| fs := fs w; trace := trace w ++ [e] |}).

Definition mem (p : string) (ps : list string) : bool :=
  existsb (String.eqb p) ps.

Definition create (p : string) : M unit :=
  fun w => (Ok tt, {| fs := if mem p (fs w) then fs w else p :: fs w;
                      trace := trace w |}).

Definition unlink (p : string) : M unit :=
  fun w => (Ok tt, {| fs := filter (fun q => negb (String.eqb p q)) (fs w);
                      trace := trace w |}).

Definition on_disk (p : string) : M bool := fun w => (Ok (mem p (fs w)), w).

Fixpoint create_all (ps : list string) : M unit :=
  match ps with
  | [] => ret tt
  | p :: rest => create p ;; create_all rest
  end.

(** ** The library calls *)

Section Calls.
Variable c : collaborators.

(** [os.path.exists(path)] *)
Definition os_path_exists (path : string) : M bool := on_disk path.

(** [ImageFont.truetype(path, size)] *)
Definition ImageFont_truetype (path : string) (size : Z) : M (string * Z) :=
  emit (EvTruetype path size) ;;
  present <- on_disk path ;;
  if (present && font_loads c path size)%bool then ret (path, size)
  else raise TruetypeError.

(** [gTTS(text=text, lang=lang)] *)
Definition gTTS (text lang : string) : M (string * string) :=
  emit (EvSpeech text lang) ;;
  if tts_accepts c text lang then ret (text, lang) else raise SpeechError.

(** [tts.save(path)]: gTTS opens [path] for writing before it fetches the
    speech, so a save that raises leaves the file behind, empty or partial. *)
Definition tts_save (tts : string * string) (path : string) : M unit :=
  emit (EvSave path) ;;
  create path ;;
  if tts_saves c (fst tts) (snd tts) then ret tt else raise SpeechError.

(** [len(AudioSegment.from_file(path))] *)
Definition AudioSegment_len (text lang path : string) : M Z :=
  emit (EvFromFile path) ;;
  present <- on_disk path ;;
  match present, audio_len c text lang with
  | true, Some ms => ret ms
  | _, _ => raise AudioError
  end.

(** [Image.open(path).resize(size)] *)
Definition Image_open_resize (path : string) (size : Z * Z) : M string :=
  emit (EvOpenResize path size) ;;
  present <- on_disk path ;;
  if (present && image_loads c path)%bool then ret path
  else raise ImageError.

(** [AudioFileClip(audio)], [ImageSequenceClip(images, durations)],
    [set_audio], [clip.fps = fps], [write_videofile(outputfile, codec)].
    A write that completes leaves the output file; one that raises leaves
    what the writer had put on disk by then. *)
Definition write_video (images : list frame) (durations : list float)
    (audio : string) (fps : Z) (outputfile codec : string) : M unit :=
  emit (EvAudioFileClip audio) ;;
  emit (EvWriteVideofile images durations fps outputfile codec) ;;
  if mux_writes c images durations audio then create outputfile
  else (create_all (mux_leaves c outputfile) ;; raise MuxError).

(** [os.remove(path)] *)
Definition os_remove (path : string) : M unit :=
  emit (EvRemove path) ;;
  present <- on_disk path ;;
  if present then unlink path else raise RemoveError.
End Calls.

(** ** The background scheduler (the loop variables of [text_to_video]) *)

Record sched : Type := mkSched {
  current_background_index : nat;
  background_change_time : Z;
  image_duration : float
}.

Section Scheduler.
Variable intervals : list Z.       (* BACKGROUND_INTERVALS *)
Variable image_count : nat.        (* len(background_images) *)

(** The conditional at the head of the loop body:
<<
    if image_duration >= background_change_time:
        current_background_index = (current_background_index + 1) % len(background_images)
        if current_background_index < len(BACKGROUND_INTERVALS):
            background_change_time += BACKGROUND_INTERVALS[current_background_index]
        image_duration = 0
>> *)
Definition change_background (s : sched) : result sched :=
  if float_ge_int (image_duration s) (background_change_time s) then
    match image_count with
    | O => Raise ZeroDivisionError
    | S _ =>
        let i := ((current_background_index s + 1) mod image_count)%nat in
        Ok {| current_background_index := i;
              background_change_time :=
                if (i <? List.length intervals)%nat
                then background_change_time s + nth i intervals 0
                else background_change_time s;
              image_duration := 0 |}
    end
  else Ok s.

(** The last statement of the loop body: [image_duration += avg_word_duration]. *)
Definition add_duration (d : float) (s : sched) : sched :=
  {| current_background_index := current_background_index s;
     background_change_time := background_change_time s;
     image_duration := PrimFloat.add (image_duration s) d |}.

(** One advance of the scheduler by [d] seconds: the increment that ends
    one iteration followed by the conditional that opens the next. *)
Definition advance (d : float) (s : sched) : result sched :=
  change_background (add_duration d s).

(** Successive advances, one per duration. *)
Fixpoint advances (ds : list float) (s : sched) : result sched :=
  match ds with
  | [] => Ok s
  | d :: ds' =>
      match advance d s with
      | Ok s' => advances ds' s'
      | Raise e => Raise e
      end
  end.

(** The scheduler states under which the first [n] words are drawn, when
    every word lasts [avg] seconds: the state after the conditional of
    each iteration. *)
Fixpoint active_states (avg : float) (n : nat) (s : sched) : result (list sched) :=
  match n with
  | O => Ok []
  | S n' =>
      match change_background s with
      | Ok s1 =>
          match active_states avg n' (add_duration avg s1) with
          | Ok rest => Ok (s1 :: rest)
          | Raise e => Raise e
          end
      | Raise e => Raise e
      end
  end.
End Scheduler.

(** ** [text_to_video] *)

Section Pipeline.
Variable g : globals.
Variable c : collaborators.

(** The body of [for i, word in enumerate(words)], iterated over [words];
    [images] and [durations] are the two lists being appended to. *)
Fixpoint frames_loop (fnt : string * Z) (background_images : list string)
    (avg_word_duration : float) (words : list string) (s : sched)
    (images : list frame) (durations : list float)
    : M (list frame * list float) :=
  match words with
  | [] => ret (images, durations)
  | word :: rest =>
      s1 <- lift (change_background (BACKGROUND_INTERVALS g)
                    (List.length background_images) s) ;;
      path <- lift (index background_images (current_background_index s1)) ;;
      bg_img <- Image_open_resize c path (VIDEO_SIZE g) ;;
      let '(x0, y0, x1, y1) := getbbox c fnt word in
      let text_width := x1 - x0 in
      let text_height := y1 - y0 in
      let position :=
        (PrimFloat.div (float_of_int (fst (VIDEO_SIZE g) - text_width)) 2,
         PrimFloat.div (float_of_int (snd (VIDEO_SIZE g) - text_height)) 2) in
      let img := {| frame_background := bg_img;
                    frame_size := VIDEO_SIZE g;
                    frame_word := word;
                    frame_position := position;
                    frame_font := fnt;
                    frame_fill := TEXT_COLOR g |} in
      emit (EvDrawText img) ;;
      frames_loop fnt background_images avg_word_duration rest
        (add_duration avg_word_duration s1)
        (images ++ [img]) (durations ++ [avg_word_duration])
  end.

(** Everything from [fnt = ImageFont.truetype(...)] to the final
    [os.remove], which the two files share; they differ in the path of the
    temporary audio file. *)
Definition synthesize_and_assemble (temp_audio_path : string)
    (text font_path : string) (background_images : list string)
    (outputfile : string) : M unit :=
  let words := split text in
  fnt <- ImageFont_truetype c font_path (FONT_SIZE g) ;;
  tts <- gTTS c text "en" ;;
  tts_save c tts temp_audio_path ;;
  ms <- AudioSegment_len c text "en" temp_audio_path ;;
  full_audio_duration <- lift (truediv_int ms 1000) ;;
  avg_word_duration <-
    lift (truediv full_audio_duration (Z.of_nat (List.length words))) ;;
  let current_background_index := O in
  background_change_time <-
    lift (index (BACKGROUND_INTERVALS g) current_background_index) ;;
  let image_duration := 0%float in
  '(images, durations) <-
    frames_loop fnt background_images avg_word_duration words
      (mkSched current_background_index background_change_time image_duration)
      [] [] ;;
  write_video c images durations temp_audio_path (TEXT_SPEED g)
    outputfile "libx264" ;;
  os_remove temp_audio_path.
End Pipeline.

(** [src/app.py] *)
Module App.
Definition config : globals :=
  {| TEXT_SPEED := 24;
     TEXT_COLOR := (0, 0, 0);
     FONT_SIZE := 180;
     TIMING_ADJUSTMENT := (-0x1.3333333333333p-2)%float;
     VIDEO_SIZE := (1080, 1920);
     BACKGROUND_INTERVALS := [10; 22; 35];
     UPLOAD_FOLDER := "uploads" |}.

Definition temp_audio_path : string := "temp.mp3".

Definition text_to_video (g : globals) (c : collaborators)
    (text font_path : string) (background_images : list string)
    (outputfile : string) : M unit :=
  synthesize_and_assemble g c temp_audio_path
    text font_path background_images outputfile.
End App.

(** [src/api/app.py]; [tmpdir] is the value of [tempfile.gettempdir()]. *)
Module Api.
Definition config (tmpdir : string) : globals :=
  {| TEXT_SPEED := 24;
     TEXT_COLOR := (0, 0, 0);
     FONT_SIZE := 180;
     TIMING_ADJUSTMENT := (-0x1.3333333333333p-2)%float;
     VIDEO_SIZE := (1080, 1920);
     BACKGROUND_INTERVALS := [10; 22; 35];
     UPLOAD_FOLDER := tmpdir |}.

Definition temp_audio_path (g : globals) : string :=
  os_path_join (UPLOAD_FOLDER g) "temp.mp3".

Definition text_to_video (g : globals) (c : collaborators)
    (text font_path : string) (background_images : list string)
    (outputfile : string) : M unit :=
  present <- os_path_exists font_path ;;
  if negb present then raise FileNotFoundError
  else synthesize_and_assemble g c (temp_audio_path g)
         text font_path background_images outputfile.
End Api.

(** ** The vocabulary of the specification *)

(** The error taxonomy of the specification (section 7). *)
Inductive spec_error : Type :=
| InvalidInputError
| FontLoadError
| ImageLoadError
| EncodingError.

(** The structured error an exception of the code stands for, following the
    causes the specification lists: a font that is missing or does not
    parse, a background that does not decode, a failure of muxing. The code
    validates neither the text nor the list of backgrounds, so nothing it
    raises is an [InvalidInputError]; [ZeroDivisionError] and [IndexError]
    come from the arithmetic and the list lookup themselves. *)
Definition spec_error_of (e : exn) : option spec_error :=
  match e with
  | FileNotFoundError | TruetypeError => Some FontLoadError
  | ImageError => Some ImageLoadError
  | MuxError => Some EncodingError
  | SpeechError | AudioError | ZeroDivisionError | IndexError | RemoveError => None
  end.

(** [advance(duration)] in the words of the specification (section 4.2):
    on a switch [next_threshold] becomes the configured threshold at the
    new index, when that index is within the list. *)
Definition spec_advance (intervals : list Z) (image_count : nat)
    (d : float) (s : sched) : sched :=
  let elapsed := PrimFloat.add (image_duration s) d in
  if float_ge_int elapsed (background_change_time s) then
    let i := ((current_background_index s + 1) mod image_count)%nat in
    {| current_background_index := i;
       background_change_time :=
         if (i <? List.length intervals)%nat then nth i intervals 0
         else background_change_time s;
       image_duration := 0 |}
  else
    {| current_background_index := current_background_index s;
       background_change_time := background_change_time s;
       image_duration := elapsed |}.

(** ** Auxiliary notions for the statements *)

(** The scheduler state before the first word (with the thresholds of the
    source, whose first is 10). *)
Definition start : sched := mkSched 0 10 0.

(** [stays_below t ds e]: starting from [e] seconds and adding the
    durations [ds] one by one, the sum never reaches the threshold [t]. *)
Fixpoint stays_below (t : Z) (ds : list float) (e : float) : bool :=
  match ds with
  | [] => true
  | d :: ds' =>
      negb (float_ge_int (PrimFloat.add e d) t)
      && stays_below t ds' (PrimFloat.add e d)
  end.

(** The calls that render a frame. *)
Definition renders (ev : event) : bool :=
  match ev with
  | EvOpenResize _ _ | EvDrawText _ => true
  | _ => false
  end.

(** The calls that assemble the video. *)
Definition assembles (ev : event) : bool :=
  match ev with
  | EvAudioFileClip _ | EvWriteVideofile _ _ _ _ _ => true
  | _ => false
  end.

Definition set_TIMING_ADJUSTMENT (t : float) (g : globals) : globals :=
  {| TEXT_SPEED := TEXT_SPEED g;
     TEXT_COLOR := TEXT_COLOR g;
     FONT_SIZE := FONT_SIZE g;
     TIMING_ADJUSTMENT := t;
     VIDEO_SIZE := VIDEO_SIZE g;
     BACKGROUND_INTERVALS := BACKGROUND_INTERVALS g;
     UPLOAD_FOLDER := UPLOAD_FOLDER g |}.

(** Sample collaborators: every call completes, the speech lasts [ms]
    milliseconds, a word is 100 pixels wide per character. *)
Definition studio (ms : Z) : collaborators :=
  {| font_loads := fun _ _ => true;
     getbbox := fun _ word => (0, 0, 100 * Z.of_nat (String.length word), 180);
     tts_accepts := fun _ _ => true;
     tts_saves := fun _ _ => true;
     audio_len := fun _ _ => Some ms;
     image_loads := fun _ => true;
     mux_writes := fun _ _ _ => true;
     mux_leaves := fun _ => [] |}.

(** The same, except that writing the video fails, leaving the writer's
    temporary sound file. *)
Definition studio_failing_mux (ms : Z) : collaborators :=
  {| font_loads := fun _ _ => true;
     getbbox := fun _ word => (0, 0, 100 * Z.of_nat (String.length word), 180);
     tts_accepts := fun _ _ => true;
     tts_saves := fun _ _ => true;
     audio_len := fun _ _ => Some ms;
     image_loads := fun _ => true;
     mux_writes := fun _ _ _ => false;
     mux_leaves := fun _ => ["outTEMP_MPY_wvf_snd.mp3"] |}.

(** Sample collaborators whose speech synthesis refuses every text. *)
Definition studio_without_speech : collaborators :=
  {| font_loads := fun _ _ => true;
     getbbox := fun _ word => (0, 0, 100 * Z.of_nat (String.length word), 180);
     tts_accepts := fun _ _ => false;
     tts_saves := fun _ _ => false;
     audio_len := fun _ _ => None;
     image_loads := fun _ => true;
     mux_writes := fun _ _ _ => true;
     mux_leaves := fun _ => [] |}.

(** A disk holding a font and five backgrounds, before any call. *)
Definition disk : world :=
  {| fs := ["font.ttf"; "a.png"; "b.png"; "c.png"; "d.png"; "e.png"];
     trace := [] |}.

(** The world [w] after the calls [evs], none of which touched a file. *)
Definition logged (w : world) (evs : list event) : world :=
  {| fs := fs w; trace := trace w ++ evs |}.

(** The world in which the loop starts: the font was loaded, the speech
    saved to [temp] and measured. *)
Definition world_after_speech (g : globals) (temp text font_path : string)
    (w : world) : world :=
  {| fs := if mem temp (fs w) then fs w else temp :: fs w;
     trace := trace w ++ [EvTruetype font_path (FONT_SIZE g);
                          EvSpeech text "en"; EvSave temp; EvFromFile temp] |}.

(** [avg_word_duration] for a speech of [ms] milliseconds and [n] words. *)
Definition avg_word_duration (ms : Z) (n : nat) : float :=
  PrimFloat.div (int_quotient ms 1000) (float_of_int (Z.of_nat n)).

(** The frames drawn, and the (images, durations) handed to the video
    writer, by a sequence of calls. *)
Definition drawn (evs : list event) : list frame :=
  flat_map (fun ev => match ev with EvDrawText f => [f] | _ => [] end) evs.

Definition written (evs : list event) : list (list frame * list float) :=
  flat_map (fun ev => match ev with
                      | EvWriteVideofile images durations _ _ _ => [(images, durations)]
                      | _ => []
                      end) evs.

(** Calls among which there is no rendering and no assembling. *)
Definition quiet (evs : list event) : bool :=
  forallb (fun ev => negb (renders ev || assembles ev)) evs.

(** A narration of 38 words. *)
Definition narration38 : string := String.concat " " (repeat "w" 38).




(** ** [allowed_file] *)

(** The module constant [ALLOWED_EXTENSIONS] (a set) of both files. *)
Definition ALLOWED_EXTENSIONS : list string :=
  ["txt"; "ttf"; "png"; "jpg"; "jpeg"].

(** [c in s] for a single character [c]. *)
Fixpoint contains (c : ascii) (s : string) : bool :=
  match s with
  | EmptyString => false
  | String a rest => Ascii.eqb a c || contains c rest
  end.

(** The text before and the text after the last [sep] of [s], if any. *)
Fixpoint rsplit_last (sep : ascii) (s : string) : option (string * string) :=
  match s with
  | EmptyString => None
  | String a rest =>
      match rsplit_last sep rest with
      | Some (before, after) => Some (String a before, after)
      | None => if Ascii.eqb a sep then Some (EmptyString, rest) else None
      end
  end.

(** [s.rsplit(sep, 1)] *)
Definition rsplit1 (sep : ascii) (s : string) : list string :=
  match rsplit_last sep s with
  | Some (before, after) => [before; after]
  | None => [s]
  end.

(** [str.lower] on the code points below 256. *)
Definition lower_char (c : ascii) : ascii :=
  let n := N_of_ascii c in
  if (((65 <=? n) && (n <=? 90)) || ((192 <=? n) && (n <=? 214))
      || ((216 <=? n) && (n <=? 222)))%N
  then ascii_of_N (n + 32) else c.

Fixpoint lower (s : string) : string :=
  match s with
  | EmptyString => EmptyString
  | String c rest => String (lower_char c) (lower rest)
  end.

(** [allowed_file(filename)]:
<<
    return '.' in filename and filename.rsplit('.', 1)[1].lower() in ALLOWED_EXTENSIONS
>> *)
Definition allowed_file (filename : string) : result bool :=
  if contains "."%char filename then
    match index (rsplit1 "."%char filename) 1 with
    | Ok ext => Ok (mem (lower ext) ALLOWED_EXTENSIONS)
    | Raise e => Raise e
    end
  else Ok false.

(** ** The request handlers *)

(** An uploaded file (a werkzeug [FileStorage]): its filename, and
    [read().decode("utf-8")] of its content, [None] when the bytes are not
    UTF-8. *)
Record upload : Type := mkUpload {
  filename : string;
  decoded : option string
}.

(** A request: its method and [request.files], a multi-dict kept in the
    order of submission. *)
Record request : Type := mkRequest {
  method : string;
  files : list (string * upload)
}.

(** [key in request.files] *)
Definition has_file (key : string) (fields : list (string * upload)) : bool :=
  existsb (fun kv => String.eqb key (fst kv)) fields.

(** [request.files.getlist(key)] *)
Definition getlist (key : string) (fields : list (string * upload)) : list upload :=
  map snd (filter (fun kv => String.eqb key (fst kv)) fields).

(** What the handlers take from werkzeug, uuid and the disk. *)
Record web : Type := mkWeb {
  secure_filename : string -> string;
  uuid4_hex : string;            (* uuid.uuid4().hex of this request *)
  saves : string -> bool         (* FileStorage.save(path) completes *)
}.

Inductive handler_exn : Type :=
| Raised (e : exn)                  (* raised below the handler, in [text_to_video] or [allowed_file] *)
| BadRequestKeyError                (* request.files[key] without the key *)
| UnboundLocalError (name : string) (* a local read before any assignment *)
| UnicodeDecodeError                (* raised inside bytes.decode *)
| SaveError.                        (* raised inside FileStorage.save *)

Inductive response : Type :=
| Body (text : string) (status : Z)          (* return text, status *)
| ErrorBody (e : handler_exn) (status : Z)   (* return f"An error occurred: {str(e)}", status *)
| Redirect (endpoint file : string)          (* redirect(url_for(endpoint, filename=file)) *)
| Form.                                      (* the upload form *)

Inductive outcome (A : Type) : Type :=
| Done (a : A)
| Failed (e : handler_exn).
Arguments Done {A} a.
Arguments Failed {A} e.

Definition W (A : Type) : Type := world -> outcome A * world.

Definition wret {A : Type} (a : A) : W A := fun w => (Done a, w).

Definition wfail {A : Type} (e : handler_exn) : W A := fun w => (Failed e, w).

Definition wbind {A B : Type} (m : W A) (k : A -> W B) : W B :=
  fun w =>
    match m w with
    | (Done a, w') => k a w'
    | (Failed e, w') => (Failed e, w')
    end.

(** A call into the code below the handler. *)
Definition call {A : Type} (m : M A) : W A :=
  fun w =>
    match m w with
    | (Ok a, w') => (Done a, w')
    | (Raise e, w') => (Failed (Raised e), w')
    end.

(** [try: body  except Exception as e: return handler(e)] *)
Definition try_except {A : Type} (body : W A) (handler : handler_exn -> W A) : W A :=
  fun w =>
    match body w with
    | (Done a, w') => (Done a, w')
    | (Failed e, w') => handler e w'
    end.

Declare Scope web_scope.
Delimit Scope web_scope with web.
Notation "x <- m ;; k" := (wbind m (fun x => k))
  (at level 61, m at next level, right associativity) : web_scope.
Notation "m ;; k" := (wbind m (fun _ => k))
  (at level 61, right associativity) : web_scope.

Section Handlers.
Variable g : globals.
Variable c : collaborators.
Variable b : web.

(** [request.files[key]] *)
Definition getitem (key : string) (fields : list (string * upload)) : W upload :=
  match getlist key fields with
  | u :: _ => wret u
  | [] => wfail BadRequestKeyError
  end.

(** [file and allowed_file(file.filename)]; a [FileStorage] is true when its
    filename is not empty. *)
Definition truthy_and_allowed (u : upload) : W bool :=
  if String.eqb (filename u) "" then wret false
  else call (lift (allowed_file (filename u))).

(** [file.save(path)] *)
Definition save (path : string) : W unit :=
  if saves b path then call (create path) else wfail SaveError.

(** Reading a local variable that an [if] may have left unassigned. *)
Definition local {A : Type} (name : string) (v : option A) : W A :=
  match v with
  | Some a => wret a
  | None => wfail (UnboundLocalError name)
  end.

(** The block that reads the text file. *)
Definition read_text (text_file : upload) : W (option string) :=
  (ok <- truthy_and_allowed text_file ;;
   if ok then
     let text_filename := secure_filename b (filename text_file) in
     match decoded text_file with
     | Some text_content => wret (Some text_content)
     | None => wfail UnicodeDecodeError
     end
   else wret None)%web.

(** The block that saves one upload under [folder], giving its path. *)
Definition save_under (folder : string) (u : upload) : W string :=
  (let name := secure_filename b (filename u) in
   let path := os_path_join folder name in
   save path ;;
   wret path)%web.

(** [for image in image_files: ...], appending to [background_images]. *)
Fixpoint save_images (folder : string) (image_files : list upload)
    (background_images : list string) : W (list string) :=
  match image_files with
  | [] => wret background_images
  | image :: rest =>
      (ok <- truthy_and_allowed image ;;
       if ok then
         image_path <- save_under folder image ;;
         save_images folder rest (background_images ++ [image_path])
       else save_images folder rest background_images)%web
  end.
End Handlers.

(** The handlers of [src/app.py]. *)
Module AppRoutes.
Definition upload_file (g : globals) (c : collaborators) (b : web)
    (req : request) : W response :=
  (if String.eqb (method req) "POST" then
     if (negb (has_file "text_file" (files req))
         || negb (has_file "font_file" (files req))
         || negb (has_file "images[]" (files req)))%bool
     then wret (Body "Missing files" 400)
     else
       text_file <- getitem "text_file" (files req) ;;
       font_file <- getitem "font_file" (files req) ;;
       let image_files := getlist "images[]" (files req) in
       text_content <- read_text b text_file ;;
       font_ok <- truthy_and_allowed font_file ;;
       font_path <- (if font_ok
                     then p <- save_under b (UPLOAD_FOLDER g) font_file ;; wret (Some p)
                     else wret None) ;;
       background_images <- save_images b (UPLOAD_FOLDER g) image_files [] ;;
       let output_filename := (uuid4_hex b ++ ".mp4")%string in
       text <- local "text_content" text_content ;;
       font <- local "font_path" font_path ;;
       call (App.text_to_video g c text font background_images output_filename) ;;
       wret (Redirect "download_file" output_filename)
   else wret Form)%web.
End AppRoutes.

(** The handlers of [src/api/app.py]. Its calls to [logging] change neither
    the response nor the disk and are left out. *)
Module ApiRoutes.
Definition upload_file (g : globals) (c : collaborators) (b : web)
    (req : request) : W response :=
  (r <- try_except
          (if String.eqb (method req) "POST" then
             if (negb (has_file "text_file" (files req))
                 || negb (has_file "font_file" (files req))
                 || negb (has_file "images[]" (files req)))%bool
             then wret (Some (Body "Missing files" 400))
             else
               text_file <- getitem "text_file" (files req) ;;
               font_file <- getitem "font_file" (files req) ;;
               let image_files := getlist "images[]" (files req) in
               text_content <- read_text b text_file ;;
               font_ok <- truthy_and_allowed font_file ;;
               if font_ok then
                 font_path <- save_under b (UPLOAD_FOLDER g) font_file ;;
                 background_images <- save_images b (UPLOAD_FOLDER g) image_files [] ;;
                 let output_filename :=
                   os_path_join (UPLOAD_FOLDER g) (uuid4_hex b ++ ".mp4") in
                 text <- local "text_content" text_content ;;
                 call (Api.text_to_video g c text font_path background_images
                         output_filename) ;;
                 wret (Some (Redirect "download_file" output_filename))
               else wret (Some (Body "Invalid font file" 400))
           else wret None)
          (fun e => wret (Some (ErrorBody e 500))) ;;
   match r with
   | Some resp => wret resp
   | None => wret Form
   end)%web.
End ApiRoutes.

(** Sample web collaborators and a sample request. *)
Definition plain_web : web :=
  {| secure_filename := fun name => name;
     uuid4_hex := "0123456789abcdef0123456789abcdef";
     saves := fun _ => true |}.

Definition sample_request : request :=
  {| method := "POST";
     files := [("text_file", mkUpload "story.txt" (Some "one two three"));
               ("font_file", mkUpload "font.ttf" None);
               ("images[]", mkUpload "a.png" None);
               ("images[]", mkUpload "notes.gif" None);
               ("images[]", mkUpload "b.JPG" None)] |}.


(** ** Auxiliary notions for the handlers and the words *)

(** A word: not empty and free of whitespace. *)
Fixpoint no_space (s : string) : bool :=
  match s with
  | EmptyString => true
  | String c rest => negb (isspace c) && no_space rest
  end.

Definition is_word (s : string) : Prop := s <> EmptyString /\ no_space s = true.

(** The verdict of [file and allowed_file(file.filename)] on an upload. *)
Definition accepted (u : upload) : bool :=
  match allowed_file (filename u) with
  | Ok verdict => verdict
  | Raise _ => false
  end.

(** The path under which an upload is saved. *)
Definition save_path (b : web) (folder : string) (u : upload) : string :=
  os_path_join folder (secure_filename b (filename u)).

(** The disk after the files [paths] were created, in that order. *)
Definition with_files (paths : list string) (w : world) : world :=
  {| fs := fold_left (fun l p => if mem p l then l else p :: l) paths (fs w);
     trace := trace w |}.


(** [grows temp w w']: every path on disk in [w], the path [temp] apart, is
    still on disk in [w']. *)
Definition grows (temp : string) (w w' : world) : Prop :=
  forall p, p <> temp -> mem p (fs w) = true -> mem p (fs w') = true.

(** A step of a handler that deletes no file but, possibly, [temp]. *)
Definition keeps_files {A : Type} (temp : string) (m : W A) : Prop :=
  forall w, grows temp w (snd (m w)).

(** * Properties *)

(** ** Numbers and words *)

Example float_ge_int_reaches : float_ge_int (PrimFloat.add 5 5) 10 = true.
Proof. reflexivity. Qed.

Example float_ge_int_below : float_ge_int (PrimFloat.add 0.5 0.25) 1 = false.
Proof. reflexivity. Qed.

(** 2^53 as a float against the integer 2^53 + 1, which no float equals. *)
Example float_ge_int_is_exact :
  float_ge_int 9007199254740992 9007199254740993 = false.
Proof. reflexivity. Qed.

(** [(2**53 + 3) / 1000] is rounded once; dividing the rounded
    [float(2**53 + 3)] by [1000.0] would round twice and end one unit in
    the last place higher. *)
Example int_quotient_rounds_once :
  int_quotient 9007199254740995 1000 = 0x1.0624dd2f1a9fdp+43%float /\
  PrimFloat.div (float_of_int 9007199254740995) 1000
  = 0x1.0624dd2f1a9fep+43%float.
Proof. split; reflexivity. Qed.

Example float_of_int_rounds_to_even :
  float_of_int 9007199254740993 = 9007199254740992%float /\
  float_of_int 9007199254740995 = 9007199254740996%float /\
  float_of_int (-3) = (-3)%float.
Proof. repeat split; reflexivity. Qed.

Example split_discards_blanks :
  split "  hello   world foo " = ["hello"; "world"; "foo"].
Proof. reflexivity. Qed.

Lemma split_from_nil (s word : string) :
  split_from word s = [] <-> word = EmptyString /\ blank s = true.
Proof.
  revert word. induction s as [|c rest IH]; intros word; cbn.
  - destruct word; split; intros H; try discriminate H; auto.
    destruct H as [H _]. discriminate H.
  - destruct (isspace c); cbn.
    + destruct word as [|a word'].
      * rewrite IH. tauto.
      * split; [discriminate|]. intros [H _]. discriminate H.
    + rewrite IH. split.
      * intros [H _]. destruct word; discriminate H.
      * intros [_ H]. discriminate H.
Qed.

(** X5. The text has no word exactly when it is empty or whitespace-only. *)
Lemma split_nil_iff_blank (text : string) :
  split text = [] <-> blank text = true.
Proof. unfold split. rewrite split_from_nil. tauto. Qed.

(** ** The scheduler *)

Section SchedulerFacts.
Variable intervals : list Z.
Variable image_count : nat.

Lemma change_background_idle (s : sched) :
  float_ge_int (image_duration s) (background_change_time s) = false ->
  change_background intervals image_count s = Ok s.
Proof. unfold change_background. intros ->. reflexivity. Qed.

Lemma change_background_due (s : sched) :
  image_count <> O ->
  float_ge_int (image_duration s) (background_change_time s) = true ->
  change_background intervals image_count s =
    Ok (let i := ((current_background_index s + 1) mod image_count)%nat in
        {| current_background_index := i;
           background_change_time :=
             if (i <? List.length intervals)%nat
             then background_change_time s + nth i intervals 0
             else background_change_time s;
           image_duration := 0 |}).
Proof.
  unfold change_background. intros Hn ->.
  destruct image_count; [contradiction | reflexivity].
Qed.

Lemma change_background_no_images (s : sched) :
  image_count = O ->
  float_ge_int (image_duration s) (background_change_time s) = true ->
  change_background intervals image_count s = Raise ZeroDivisionError.
Proof. unfold change_background. intros -> ->. reflexivity. Qed.

(** [advance], outcome by outcome. *)
Lemma advance_eq (d : float) (s : sched) :
  image_count <> O ->
  advance intervals image_count d s =
    Ok (let elapsed := PrimFloat.add (image_duration s) d in
        if float_ge_int elapsed (background_change_time s) then
          let i := ((current_background_index s + 1) mod image_count)%nat in
          {| current_background_index := i;
             background_change_time :=
               if (i <? List.length intervals)%nat
               then background_change_time s + nth i intervals 0
               else background_change_time s;
             image_duration := 0 |}
        else add_duration d s).
Proof.
  intros Hn. unfold advance. cbv zeta.
  destruct (float_ge_int (PrimFloat.add (image_duration s) d)
              (background_change_time s)) eqn:Hge.
  - rewrite change_background_due by assumption. reflexivity.
  - rewrite change_background_idle by assumption. reflexivity.
Qed.

Lemma advances_app (ds1 ds2 : list float) (s : sched) :
  advances intervals image_count (ds1 ++ ds2) s =
    match advances intervals image_count ds1 s with
    | Ok s1 => advances intervals image_count ds2 s1
    | Raise e => Raise e
    end.
Proof.
  revert s. induction ds1 as [|d ds1 IH]; intros s; simpl.
  - reflexivity.
  - destruct (advance intervals image_count d s); [apply IH | reflexivity].
Qed.

(** While the running sum stays below the threshold, advances only
    accumulate time. *)
Lemma advances_below (ds : list float) (s : sched) :
  stays_below (background_change_time s) ds (image_duration s) = true ->
  advances intervals image_count ds s =
    Ok {| current_background_index := current_background_index s;
          background_change_time := background_change_time s;
          image_duration := fold_left PrimFloat.add ds (image_duration s) |}.
Proof.
  revert s. induction ds as [|d ds IH]; intros s; simpl.
  - intros _. destruct s; reflexivity.
  - intros H. apply andb_prop in H. destruct H as [Hd Hrest].
    apply negb_true_iff in Hd.
    unfold advance. rewrite change_background_idle by exact Hd.
    rewrite IH by exact Hrest. reflexivity.
Qed.

(** The drawing states of the loop are the successive advances from the
    state of the first word. *)
Lemma active_states_advances (avg : float) (n : nat) (s s1 : sched) :
  change_background intervals image_count s = Ok s1 ->
  forall k states,
    active_states intervals image_count avg n s = Ok states ->
    (k < n)%nat ->
    exists sk,
      nth_error states k = Some sk /\
      advances intervals image_count (repeat avg k) s1 = Ok sk.
Proof.
  revert s s1. induction n as [|n IH]; intros s s1 Hs k states Hrun Hk.
  - lia.
  - simpl in Hrun. rewrite Hs in Hrun.
    destruct (active_states intervals image_count avg n (add_duration avg s1))
      as [rest|e] eqn:Hrest; [|discriminate].
    injection Hrun as <-.
    destruct k as [|k].
    + exists s1. split; reflexivity.
    + destruct n as [|n]; [lia|].
      simpl in Hrest.
      destruct (change_background intervals image_count (add_duration avg s1))
        as [s2|e] eqn:Hs2; [|discriminate].
      destruct (IH (add_duration avg s1) s2 Hs2 k rest) as (sk & Hnth & Hadv).
      * simpl. rewrite Hs2. exact Hrest.
      * lia.
      * exists sk. split; [exact Hnth|].
        simpl. unfold advance. rewrite Hs2. exact Hadv.
Qed.
End SchedulerFacts.

Lemma succ_mod_neq (i n : nat) :
  (2 <= n)%nat -> (i < n)%nat -> ((i + 1) mod n)%nat <> i.
Proof.
  intros Hn Hi.
  destruct (Nat.eq_dec (i + 1) n) as [E|E].
  - rewrite E, Nat.Div0.mod_same. lia.
  - rewrite Nat.mod_small by lia. lia.
Qed.

(** C2, the claim as stated, fails: from the initial state with thresholds
    [10, 22, 35] and three images, an advance of 10 seconds switches to
    index 1 and leaves [background_change_time] at 10 + 22 = 32, where the
    specification's advance puts 22. *)
Lemma advance_differs_from_spec_advance :
  advance [10; 22; 35] 3 10 start = Ok (mkSched 1 32 0) /\
  spec_advance [10; 22; 35] 3 10 start = mkSched 1 22 0 /\
  advance [10; 22; 35] 3 10 start <> Ok (spec_advance [10; 22; 35] 3 10 start).
Proof.
  split; [reflexivity|]. split; [reflexivity|].
  vm_compute. discriminate.
Qed.

(** C2 (amended). For every scheduler state, every duration [d] and a
    positive image count, an advance adds [d] to the elapsed time. When the
    sum stays below the threshold nothing else changes. When it reaches the
    threshold ([>=]) the index becomes (index + 1) mod image count, the
    elapsed time is reset to 0, and the threshold is INCREASED by the
    configured value at the new index (a running sum of the values selected
    so far), provided the new index is within the threshold list; it is left
    as it is otherwise. *)
Theorem advance_accumulates_threshold
    (intervals : list Z) (image_count : nat) (d : float) (s : sched) :
  image_count <> O ->
  let elapsed := PrimFloat.add (image_duration s) d in
  exists s',
    advance intervals image_count d s = Ok s' /\
    (float_ge_int elapsed (background_change_time s) = false ->
     current_background_index s' = current_background_index s /\
     background_change_time s' = background_change_time s /\
     image_duration s' = elapsed) /\
    (float_ge_int elapsed (background_change_time s) = true ->
     current_background_index s'
     = ((current_background_index s + 1) mod image_count)%nat /\
     image_duration s' = 0%float /\
     ((current_background_index s' < List.length intervals)%nat ->
      background_change_time s'
      = background_change_time s + nth (current_background_index s') intervals 0) /\
     ((List.length intervals <= current_background_index s')%nat ->
      background_change_time s' = background_change_time s)).
Proof.
  intros Hn elapsed. rewrite advance_eq by exact Hn. cbv zeta. fold elapsed.
  eexists. split; [reflexivity|].
  destruct (float_ge_int elapsed (background_change_time s)).
  - split; [discriminate|]. intros _.
    cbn [current_background_index background_change_time image_duration].
    split; [reflexivity|]. split; [reflexivity|]. split.
    + intros Hin. apply Nat.ltb_lt in Hin. rewrite Hin. reflexivity.
    + intros Hout. apply Nat.ltb_ge in Hout. rewrite Hout. reflexivity.
  - split; [|discriminate]. intros _. repeat split; reflexivity.
Qed.

Lemma advance_accumulates_threshold_witness :
  exists s',
    advance [10; 22; 35] 3 10 start = Ok s' /\
    current_background_index s' = 1%nat /\
    image_duration s' = 0%float /\
    background_change_time s' = 32.
Proof.
  destruct (advance_accumulates_threshold [10; 22; 35] 3 10 start)
    as (s' & Hrun & _ & Hdue); [discriminate|].
  destruct Hdue as (Hidx & Hzero & Hin & _); [reflexivity|].
  exists s'. split; [exact Hrun|]. split; [exact Hidx|]. split; [exact Hzero|].
  rewrite Hin; rewrite Hidx; [reflexivity | cbn; lia].
Defined.

(** C1, the claim as stated, fails, already on the runs that start from the
    initial state. Thresholds [10, 22, 35], five images, advances of 5
    seconds: after 22 advances the state is index 2, threshold 67, elapsed
    65; the 23rd advance switches to index 3, which is outside the threshold
    list; 14 further advances bring the elapsed time to 70 >= 67 and switch
    to index 4. *)
Lemma exhausted_list_switches_again :
  ~ (forall (intervals : list Z) (n : nat) (ds1 : list float) (d : float)
            (ds2 : list float) (s s' s'' : sched),
        n <> O ->
        advances intervals n ds1 (mkSched 0 (nth 0 intervals 0) 0) = Ok s ->
        float_ge_int (PrimFloat.add (image_duration s) d)
                     (background_change_time s) = true ->
        advance intervals n d s = Ok s' ->
        (List.length intervals <= current_background_index s')%nat ->
        advances intervals n ds2 s' = Ok s'' ->
        current_background_index s'' = current_background_index s').
Proof.
  intros H.
  specialize (H [10; 22; 35] 5%nat (repeat 5%float 22) 5%float
                (repeat 5%float 14)
                (mkSched 2 67 65) (mkSched 3 67 0) (mkSched 4 67 0)).
  assert (E : 4%nat = 3%nat).
  { apply H.
    - discriminate.
    - reflexivity.
    - reflexivity.
    - reflexivity.
    - simpl. lia.
    - reflexivity. }
  discriminate E.
Qed.

(** C1 (amended). When a switch moves the index outside the threshold
    list, the threshold keeps its value and the elapsed time restarts at 0.
    The index then stays fixed only while the elapsed time is below that
    retained threshold: the first advance at which the elapsed time reaches
    it moves the index to (index + 1) mod image count, a different index
    when there are two images or more. *)
Theorem exhausted_threshold_is_retained
    (intervals : list Z) (n : nat) (d : float) (s s' : sched) :
  n <> O ->
  float_ge_int (PrimFloat.add (image_duration s) d)
               (background_change_time s) = true ->
  advance intervals n d s = Ok s' ->
  (List.length intervals <= current_background_index s')%nat ->
  background_change_time s' = background_change_time s /\
  image_duration s' = 0%float /\
  forall (ds : list float) (d' : float),
    stays_below (background_change_time s) ds 0 = true ->
    float_ge_int (PrimFloat.add (fold_left PrimFloat.add ds 0%float) d')
                 (background_change_time s) = true ->
    (exists s1, advances intervals n ds s' = Ok s1 /\
                current_background_index s1 = current_background_index s') /\
    (exists s2, advances intervals n (ds ++ [d']) s' = Ok s2 /\
                current_background_index s2
                = ((current_background_index s' + 1) mod n)%nat /\
                ((2 <= n)%nat ->
                 current_background_index s2 <> current_background_index s')).
Proof.
  intros Hn Hge Hadv Hout.
  rewrite advance_eq in Hadv by exact Hn.
  cbv zeta in Hadv. rewrite Hge in Hadv. injection Hadv as <-.
  cbn [current_background_index background_change_time image_duration] in *.
  apply Nat.ltb_ge in Hout. rewrite Hout.
  split; [reflexivity|]. split; [reflexivity|].
  intros ds d' Hbelow Hreach.
  set (s' := {| current_background_index :=
                  ((current_background_index s + 1) mod n)%nat;
                background_change_time := background_change_time s;
                image_duration := 0 |}).
  assert (Hds : advances intervals n ds s' =
                Ok {| current_background_index := current_background_index s';
                      background_change_time := background_change_time s';
                      image_duration :=
                        fold_left PrimFloat.add ds (image_duration s') |})
    by (apply advances_below; exact Hbelow).
  split.
  - eexists. split; [exact Hds | reflexivity].
  - rewrite advances_app, Hds. cbn [advances].
    rewrite advance_eq by exact Hn.
    cbv zeta.
    cbn [current_background_index background_change_time image_duration s'].
    rewrite Hreach.
    eexists. split; [reflexivity|].
    cbn [current_background_index]. split; [reflexivity|].
    intros H2. apply succ_mod_neq; [exact H2|].
    apply Nat.mod_upper_bound. exact Hn.
Qed.

Lemma exhausted_threshold_is_retained_witness :
  exists s2,
    advances [10; 22; 35] 5 (repeat 5%float 13 ++ [5%float]) (mkSched 3 67 0)
    = Ok s2 /\
    current_background_index s2 = 4%nat.
Proof.
  destruct (exhausted_threshold_is_retained [10; 22; 35] 5 5
              (mkSched 2 67 65) (mkSched 3 67 0)) as (_ & _ & H).
  - discriminate.
  - reflexivity.
  - reflexivity.
  - simpl. lia.
  - destruct (H (repeat 5%float 13) 5%float) as (_ & s2 & Hrun & Hidx & _).
    + reflexivity.
    + reflexivity.
    + exists s2. split; [exact Hrun | exact Hidx].
Defined.

(** C8. Thresholds [10, 22, 35], advances of 5 seconds, two images or more.
    After one advance the elapsed time is 5 < 10 and the index is still 0;
    the second advance brings it to 10, and since the comparison is [>=]
    the index switches to 1 exactly then, the elapsed time restarting at 0.
    The following six advances (elapsed 5 to 30) stay below the next
    threshold and keep index 1; the switch after that happens only at the
    advance that reaches it again (the ninth advance overall). *)
Theorem first_switch_when_elapsed_reaches_ten (n : nat) :
  (2 <= n)%nat ->
  let run k := advances [10; 22; 35] n (repeat 5%float k) start in
  float_ge_int 5 10 = false /\
  float_ge_int (PrimFloat.add 5 5) 10 = true /\
  run 1%nat = Ok (mkSched 0 10 5) /\
  run 2%nat = Ok (mkSched 1 32 0) /\
  (forall k, (k <= 6)%nat ->
     exists e, run (2 + k)%nat = Ok (mkSched 1 32 e) /\
               float_ge_int e 32 = false) /\
  (exists s, run 9%nat = Ok s /\
             current_background_index s = (2 mod n)%nat /\
             image_duration s = 0%float).
Proof.
  intros Hn run.
  assert (Hn0 : n <> O) by lia.
  assert (H1 : (1 mod n = 1)%nat) by (apply Nat.mod_small; lia).
  assert (R1 : run 1%nat = Ok (mkSched 0 10 5)).
  { unfold run. simpl repeat. cbn [advances].
    rewrite advance_eq by exact Hn0. reflexivity. }
  assert (R2 : run 2%nat = Ok (mkSched 1 32 0)).
  { unfold run. change (repeat 5%float 2) with (repeat 5%float 1 ++ [5%float])%list.
    rewrite advances_app. fold (run 1%nat). rewrite R1. cbn [advances].
    rewrite advance_eq by exact Hn0.
    cbv zeta. cbn [current_background_index background_change_time image_duration].
    change (float_ge_int (PrimFloat.add 5 5) 10) with true. cbv iota.
    change (0 + 1)%nat with 1%nat. rewrite H1. reflexivity. }
  assert (R : forall k, (k <= 7)%nat ->
            stays_below 32 (repeat 5%float k) 0 = true ->
            run (2 + k)%nat
            = Ok (mkSched 1 32 (fold_left PrimFloat.add (repeat 5%float k) 0%float))).
  { intros k _ Hk. unfold run.
    rewrite repeat_app, advances_app. fold (run 2%nat). rewrite R2.
    apply (advances_below [10; 22; 35] n (repeat 5%float k) (mkSched 1 32 0)).
    exact Hk. }
  split; [reflexivity|]. split; [reflexivity|].
  split; [exact R1|]. split; [exact R2|]. split.
  - intros k Hk.
    assert (Hcases : (k = 0 \/ k = 1 \/ k = 2 \/ k = 3 \/ k = 4 \/ k = 5 \/ k = 6)%nat)
      by lia.
    eexists. split.
    + apply R; [lia|].
      destruct Hcases as [->|[->|[->|[->|[->|[->| ->]]]]]]; reflexivity.
    + destruct Hcases as [->|[->|[->|[->|[->|[->| ->]]]]]]; reflexivity.
  - unfold run. change (repeat 5%float 9) with (repeat 5%float (2 + 6) ++ [5%float])%list.
    rewrite advances_app. fold (run (2 + 6)%nat).
    rewrite R by (try lia; reflexivity). cbn [advances].
    rewrite advance_eq by exact Hn0.
    eexists. split; [reflexivity|]. split; reflexivity.
Qed.

Lemma first_switch_when_elapsed_reaches_ten_witness :
  (2 <= 3)%nat /\
  advances [10; 22; 35] 3 (repeat 5%float 2) start = Ok (mkSched 1 32 0).
Proof.
  split; [lia|].
  destruct (first_switch_when_elapsed_reaches_ten 3) as (_ & _ & _ & H & _).
  - lia.
  - exact H.
Defined.

(** ** The frame loop *)

Lemma logged_nil (w : world) : logged w [] = w.
Proof. destruct w. unfold logged. cbn. rewrite app_nil_r. reflexivity. Qed.

Lemma logged_logged (w : world) (evs1 evs2 : list event) :
  logged (logged w evs1) evs2 = logged w (evs1 ++ evs2).
Proof. unfold logged. cbn. rewrite app_assoc. reflexivity. Qed.

Lemma change_background_raises (intervals : list Z) (n : nat) (s : sched) (e : exn) :
  change_background intervals n s = Raise e -> e = ZeroDivisionError /\ n = O.
Proof.
  unfold change_background.
  destruct (float_ge_int _ _); [|discriminate].
  destruct n; [|discriminate].
  intros H. injection H as <-. split; reflexivity.
Qed.

Lemma index_raises {A : Type} (xs : list A) (i : nat) (e : exn) :
  index xs i = Raise e -> e = IndexError.
Proof.
  unfold index. destruct (nth_error xs i); [discriminate|].
  intros H. injection H as <-. reflexivity.
Qed.

Section LoopFacts.
Variable g : globals.
Variable c : collaborators.
Variable fnt : string * Z.
Variable background_images : list string.
Variable avg : float.

(** What a run of the loop leaves behind: it touches no file, logs only
    rendering calls, and either raises one of three exceptions or has
    appended one frame and one duration per word, each frame drawn over
    the background its scheduler state selects. *)
Lemma frames_loop_inv (words : list string) :
  forall (s : sched) (images : list frame) (durations : list float)
         (w : world) (r : result (list frame * list float)) (w' : world),
    frames_loop g c fnt background_images avg words s images durations w = (r, w') ->
    exists evs,
      w' = logged w evs /\
      forallb renders evs = true /\
      match r with
      | Ok (images', durations') =>
          exists new states,
            images' = (images ++ new)%list /\
            map frame_word new = words /\
            durations' = (durations ++ repeat avg (List.length words))%list /\
            active_states (BACKGROUND_INTERVALS g) (List.length background_images)
              avg (List.length words) s = Ok states /\
            map (fun f => Some (frame_background f)) new
            = map (fun st => nth_error background_images
                               (current_background_index st)) states /\
            drawn evs = new /\
            written evs = []
      | Raise e =>
          e = ZeroDivisionError \/ e = IndexError \/ e = ImageError
      end.
Proof.
  induction words as [|word rest IH]; intros s images durations w r w' Hrun.
  - cbn in Hrun. unfold ret in Hrun. injection Hrun as <- <-.
    exists []. rewrite logged_nil. split; [reflexivity|]. split; [reflexivity|].
    exists [], []. rewrite !app_nil_r. repeat split; reflexivity.
  - cbn [frames_loop] in Hrun.
    cbv [bind lift ret raise emit on_disk Image_open_resize index] in Hrun.
    destruct (change_background (BACKGROUND_INTERVALS g)
                (List.length background_images) s) as [s1|e] eqn:Hs1.
    2:{ injection Hrun as <- <-. exists []. rewrite logged_nil.
        split; [reflexivity|]. split; [reflexivity|].
        left. apply (change_background_raises _ _ _ _ Hs1). }
    destruct (nth_error background_images (current_background_index s1))
      as [path|] eqn:Hpath.
    2:{ injection Hrun as <- <-. exists []. rewrite logged_nil.
        split; [reflexivity|]. split; [reflexivity|].
        right. left. reflexivity. }
    cbn [fs trace] in Hrun.
    destruct (mem path (fs w) && image_loads c path)%bool.
    2:{ injection Hrun as <- <-. exists [EvOpenResize path (VIDEO_SIZE g)].
        split; [reflexivity|]. split; [reflexivity|].
        right. right. reflexivity. }
    destruct (getbbox c fnt word) as [[[x0 y0] x1] y1].
    cbn [fs trace] in Hrun.
    match type of Hrun with
    | frames_loop _ _ _ _ _ _ _ (_ ++ [?f])%list _ ?w1 = _ =>
        set (img := f) in *; set (w1' := w1) in *
    end.
    apply IH in Hrun. destruct Hrun as (evs & -> & Hevs & Hres).
    exists ([EvOpenResize path (VIDEO_SIZE g); EvDrawText img] ++ evs)%list.
    split.
    { unfold w1', logged. cbn [fs trace]. rewrite <- !app_assoc. reflexivity. }
    split.
    { cbn. exact Hevs. }
    destruct r as [[images' durations']|e]; [|exact Hres].
    destruct Hres as (new & states & -> & Hwords & -> & Hstates & Hbgs & Hdrawn & Hwritten).
    exists (img :: new), (s1 :: states).
    split. { rewrite <- app_assoc. reflexivity. }
    split. { cbn. rewrite Hwords. reflexivity. }
    split. { rewrite <- app_assoc. reflexivity. }
    split. { cbn [active_states List.length]. rewrite Hs1, Hstates. reflexivity. }
    split. { cbn [map]. rewrite Hbgs, Hpath. reflexivity. }
    split. { cbn. fold (drawn evs). rewrite Hdrawn. reflexivity. }
    cbn. exact Hwritten.
Qed.
End LoopFacts.

(** The frames of a completed loop follow the scheduler: the frame of word
    [k] is drawn over the background selected after [k] advances of [avg]
    seconds from the state of the first word. *)
Lemma frames_follow_advances
    (g : globals) (c : collaborators) (fnt : string * Z)
    (background_images : list string) (avg : float) (words : list string)
    (s s1 : sched) (w w' : world) (images : list frame) (durations : list float) :
  frames_loop g c fnt background_images avg words s [] [] w
  = (Ok (images, durations), w') ->
  change_background (BACKGROUND_INTERVALS g) (List.length background_images) s
  = Ok s1 ->
  forall k f,
    nth_error images k = Some f ->
    exists sk,
      advances (BACKGROUND_INTERVALS g) (List.length background_images)
        (repeat avg k) s1 = Ok sk /\
      nth_error background_images (current_background_index sk)
      = Some (frame_background f).
Proof.
  intros Hrun Hs1 k f Hk.
  apply frames_loop_inv in Hrun.
  destruct Hrun as (evs & _ & _ & new & states & Himg & Hwords & _ & Hstates & Hbgs & _).
  cbn [app] in Himg. subst images.
  assert (Hlt : (k < List.length words)%nat).
  { rewrite <- Hwords, length_map. apply nth_error_Some. congruence. }
  destruct (active_states_advances _ _ avg _ s s1 Hs1 k states Hstates Hlt)
    as (sk & Hnth & Hadv).
  exists sk. split; [exact Hadv|].
  assert (E : nth_error (map (fun f => Some (frame_background f)) new) k
              = nth_error (map (fun st => nth_error background_images
                                            (current_background_index st)) states) k)
    by (rewrite Hbgs; reflexivity).
  rewrite (map_nth_error _ _ _ Hk), (map_nth_error _ _ _ Hnth) in E.
  injection E as E. symmetry. exact E.
Qed.

(** ** The whole function *)

Lemma mem_cons_same (p : string) (ps : list string) : mem p (p :: ps) = true.
Proof. unfold mem. cbn. rewrite String.eqb_refl. reflexivity. Qed.

Lemma mem_created (p : string) (ps : list string) :
  mem p (if mem p ps then ps else p :: ps) = true.
Proof.
  destruct (mem p ps) eqn:E; [exact E | apply mem_cons_same].
Qed.

Lemma mem_created_other (p q : string) (ps : list string) :
  mem p ps = true -> mem p (if mem q ps then ps else q :: ps) = true.
Proof.
  intros H. destruct (mem q ps); [exact H|].
  unfold mem in *. cbn. rewrite H. apply orb_true_r.
Qed.

Lemma mem_unlinked (p : string) (ps : list string) :
  mem p (filter (fun q => negb (String.eqb p q)) ps) = false.
Proof.
  unfold mem. induction ps as [|q ps IH]; cbn; [reflexivity|].
  destruct (String.eqb p q) eqn:E; cbn; [exact IH|].
  rewrite E. exact IH.
Qed.

Lemma with_files_app (ps qs : list string) (w : world) :
  with_files (ps ++ qs) w = with_files qs (with_files ps w).
Proof. unfold with_files. cbn [fs trace]. rewrite fold_left_app. reflexivity. Qed.

Lemma with_files_nil (w : world) : with_files [] w = w.
Proof. destruct w. reflexivity. Qed.

Lemma with_files_keeps (ps : list string) (w : world) (p : string) :
  mem p (fs w) = true -> mem p (fs (with_files ps w)) = true.
Proof.
  revert w. induction ps as [|q ps IH]; intros w H; [exact H|].
  change (with_files (q :: ps) w) with (with_files ps (with_files [q] w)).
  apply IH. cbn. apply mem_created_other. exact H.
Qed.

Lemma with_files_holds (ps : list string) (w : world) (p : string) :
  In p ps -> mem p (fs (with_files ps w)) = true.
Proof.
  revert w. induction ps as [|q ps IH]; intros w Hin; [destruct Hin|].
  change (with_files (q :: ps) w) with (with_files ps (with_files [q] w)).
  destruct Hin as [->|Hin].
  - apply with_files_keeps. cbn. apply mem_created.
  - apply IH. exact Hin.
Qed.

Lemma create_all_eq (ps : list string) (w : world) :
  create_all ps w = (Ok tt, with_files ps w).
Proof.
  revert w. induction ps as [|p ps IH]; intros w.
  - destruct w. reflexivity.
  - cbn [create_all]. unfold bind, create. rewrite IH. reflexivity.
Qed.

Section RunFacts.
Variable g : globals.
Variable c : collaborators.
Variable temp text font_path : string.
Variable background_images : list string.
Variable outputfile : string.

(** The run of the shared body, outcome by outcome. *)
Lemma synthesize_and_assemble_eq (w : world) :
  synthesize_and_assemble g c temp text font_path background_images outputfile w =
    if negb (mem font_path (fs w) && font_loads c font_path (FONT_SIZE g)) then
      (Raise TruetypeError, logged w [EvTruetype font_path (FONT_SIZE g)])
    else if negb (tts_accepts c text "en") then
      (Raise SpeechError,
       logged w [EvTruetype font_path (FONT_SIZE g); EvSpeech text "en"])
    else if negb (tts_saves c text "en") then
      (Raise SpeechError,
       with_files [temp]
         (logged w [EvTruetype font_path (FONT_SIZE g); EvSpeech text "en";
                    EvSave temp]))
    else
      let w2 := world_after_speech g temp text font_path w in
      match audio_len c text "en" with
      | None => (Raise AudioError, w2)
      | Some ms =>
          match split text with
          | [] => (Raise ZeroDivisionError, w2)
          | _ :: _ =>
              match nth_error (BACKGROUND_INTERVALS g) 0 with
              | None => (Raise IndexError, w2)
              | Some t0 =>
                  match frames_loop g c (font_path, FONT_SIZE g) background_images
                          (avg_word_duration ms (List.length (split text)))
                          (split text) (mkSched 0 t0 0) [] [] w2 with
                  | (Raise e, w3) => (Raise e, w3)
                  | (Ok (images, durations), w3) =>
                      let evs := [EvAudioFileClip temp;
                                  EvWriteVideofile images durations (TEXT_SPEED g)
                                    outputfile "libx264"] in
                      if mux_writes c images durations temp then
                        (Ok tt,
                         {| fs := filter (fun q => negb (String.eqb temp q))
                                    (if mem outputfile (fs w2) then fs w2
                                     else outputfile :: fs w2);
                            trace := trace w3 ++ evs ++ [EvRemove temp] |})
                      else (Raise MuxError,
                            with_files (mux_leaves c outputfile) (logged w3 evs))
                  end
              end
          end
      end.
Proof.
  cbv [synthesize_and_assemble ImageFont_truetype gTTS tts_save AudioSegment_len
       write_video os_remove bind lift ret raise emit on_disk create unlink
       index truediv_int truediv].
  cbn [fs trace].
  destruct (mem font_path (fs w) && font_loads c font_path (FONT_SIZE g))%bool;
    cbn [negb]; [|reflexivity].
  destruct (tts_accepts c text "en"); cbn [negb].
  2:{ unfold logged. cbn [fs trace]. rewrite <- !app_assoc. reflexivity. }
  cbn [fst snd fs trace].
  destruct (tts_saves c text "en"); cbn [negb].
  2:{ unfold logged, with_files. cbn [fs trace fold_left].
      rewrite <- !app_assoc. reflexivity. }
  cbn [fs trace]. rewrite mem_created.
  assert (Hw2 : {| fs := if mem temp (fs w) then fs w else temp :: fs w;
                   trace := (((trace w ++ [EvTruetype font_path (FONT_SIZE g)])
                              ++ [EvSpeech text "en"]) ++ [EvSave temp])
                            ++ [EvFromFile temp] |}
                = world_after_speech g temp text font_path w).
  { unfold world_after_speech. rewrite <- !app_assoc. reflexivity. }
  rewrite Hw2. cbv zeta.
  destruct (audio_len c text "en") as [ms|]; [|reflexivity].
  change (1000 =? 0) with false. cbv iota.
  destruct (split text) as [|word rest] eqn:Hwords; [reflexivity|].
  change (Z.of_nat (List.length (word :: rest)) =? 0) with false. cbv iota.
  destruct (nth_error (BACKGROUND_INTERVALS g) 0) as [t0|]; [|reflexivity].
  fold (avg_word_duration ms (List.length (word :: rest))).
  destruct (frames_loop g c (font_path, FONT_SIZE g) background_images
              (avg_word_duration ms (List.length (word :: rest))) (word :: rest)
              (mkSched 0 t0 0) [] [] (world_after_speech g temp text font_path w))
    as [[[images durations]|e] w3] eqn:Hloop; [|reflexivity].
  apply frames_loop_inv in Hloop. destruct Hloop as (evs & -> & _).
  cbn [fs trace logged].
  destruct (mux_writes c images durations temp).
  2:{ rewrite create_all_eq. unfold logged, with_files. cbn [fs trace].
      rewrite <- !app_assoc. reflexivity. }
  cbn [fs trace].
  assert (Hmem : mem temp (if mem outputfile (fs (world_after_speech g temp text font_path w))
                           then fs (world_after_speech g temp text font_path w)
                           else outputfile :: fs (world_after_speech g temp text font_path w))
                 = true).
  { apply mem_created_other. unfold world_after_speech. cbn [fs].
    apply mem_created. }
  rewrite Hmem. rewrite <- !app_assoc. reflexivity.
Qed.

Lemma Api_text_to_video_eq (w : world) :
  temp = Api.temp_audio_path g ->
  Api.text_to_video g c text font_path background_images outputfile w =
    if mem font_path (fs w)
    then synthesize_and_assemble g c temp text font_path background_images
           outputfile w
    else (Raise FileNotFoundError, w).
Proof.
  intros ->. cbv [Api.text_to_video os_path_exists on_disk bind raise].
  destruct (mem font_path (fs w)); reflexivity.
Qed.
End RunFacts.

Lemma drawn_app (evs1 evs2 : list event) :
  drawn (evs1 ++ evs2) = (drawn evs1 ++ drawn evs2)%list.
Proof. apply flat_map_app. Qed.

Lemma written_app (evs1 evs2 : list event) :
  written (evs1 ++ evs2) = (written evs1 ++ written evs2)%list.
Proof. apply flat_map_app. Qed.

(** C7. When the font file is missing or does not load at the configured
    size, both versions raise the font failure at once: [src/app.py] from
    [ImageFont.truetype], [src/api/app.py] from its existence check (or from
    [ImageFont.truetype] for a file that exists but does not load). The only
    call made so far is the font load itself: no speech was synthesised and
    no frame rendered. Conversely a run that ends in a font failure, whatever
    its inputs, has rendered nothing: the font is loaded once, before the
    loop, and never inside it. *)
Theorem font_failure_is_raised_up_front
    (g : globals) (c : collaborators) (text font_path : string)
    (background_images : list string) (outputfile : string) (w : world) :
  let load := EvTruetype font_path (FONT_SIZE g) in
  let app := App.text_to_video g c text font_path background_images outputfile w in
  let api := Api.text_to_video g c text font_path background_images outputfile w in
  ((mem font_path (fs w) && font_loads c font_path (FONT_SIZE g))%bool = false ->
   app = (Raise TruetypeError, logged w [load]) /\
   api = (if mem font_path (fs w) then (Raise TruetypeError, logged w [load])
          else (Raise FileNotFoundError, w)) /\
   spec_error_of TruetypeError = Some FontLoadError /\
   spec_error_of FileNotFoundError = Some FontLoadError) /\
  (forall e w', app = (Raise e, w') ->
     spec_error_of e = Some FontLoadError -> w' = logged w [load]) /\
  (forall e w', api = (Raise e, w') ->
     spec_error_of e = Some FontLoadError -> w' = w \/ w' = logged w [load]).
Proof.
  intros load app api.
  assert (Hloop : forall temp e w',
             synthesize_and_assemble g c temp text font_path background_images
               outputfile w = (Raise e, w') ->
             spec_error_of e = Some FontLoadError -> w' = logged w [load]).
  { intros temp e w' Hrun He. rewrite synthesize_and_assemble_eq in Hrun.
    destruct (mem font_path (fs w) && font_loads c font_path (FONT_SIZE g))%bool;
      cbn [negb] in Hrun.
    2:{ injection Hrun as <- <-. reflexivity. }
    destruct (tts_accepts c text "en"); cbn [negb] in Hrun.
    2:{ injection Hrun as <- <-. discriminate He. }
    destruct (tts_saves c text "en"); cbn [negb] in Hrun.
    2:{ injection Hrun as <- <-. discriminate He. }
    cbv zeta in Hrun.
    destruct (audio_len c text "en") as [ms|].
    2:{ injection Hrun as <- <-. discriminate He. }
    destruct (split text) as [|word rest].
    { injection Hrun as <- <-. discriminate He. }
    destruct (nth_error (BACKGROUND_INTERVALS g) 0) as [t0|].
    2:{ injection Hrun as <- <-. discriminate He. }
    match type of Hrun with
    | match ?loop with _ => _ end = _ =>
        destruct loop as [[[images durations]|e0] w3] eqn:Hl
    end.
    - destruct (mux_writes c images durations temp); [discriminate Hrun|].
      injection Hrun as <- <-. discriminate He.
    - injection Hrun as <- <-. apply frames_loop_inv in Hl.
      destruct Hl as (evs & _ & _ & [->|[->| ->]]); discriminate He. }
  split; [|split].
  - intros Hfont. split; [|split; [|split; reflexivity]].
    + unfold app, App.text_to_video. rewrite synthesize_and_assemble_eq, Hfont.
      reflexivity.
    + unfold api.
      rewrite (Api_text_to_video_eq g c (Api.temp_audio_path g)) by reflexivity.
      destruct (mem font_path (fs w)) eqn:Hm; [|reflexivity].
      rewrite synthesize_and_assemble_eq, Hm, Hfont. reflexivity.
  - intros e w'. unfold app, App.text_to_video. apply Hloop.
  - intros e w'. unfold api.
    rewrite (Api_text_to_video_eq g c (Api.temp_audio_path g)) by reflexivity.
    destruct (mem font_path (fs w)) eqn:Hm.
    + intros Hrun He. right. exact (Hloop _ _ _ Hrun He).
    + intros Hrun _. injection Hrun as <- <-. left. reflexivity.
Qed.

Lemma font_failure_is_raised_up_front_witness :
  App.text_to_video App.config (studio 6000) "hello world" "missing.ttf"
    ["a.png"] "out.mp4" disk
  = (Raise TruetypeError, logged disk [EvTruetype "missing.ttf" 180]) /\
  Api.text_to_video (Api.config "/tmp") (studio 6000) "hello world" "missing.ttf"
    ["a.png"] "out.mp4" disk
  = (Raise FileNotFoundError, disk).
Proof.
  destruct (font_failure_is_raised_up_front App.config (studio 6000)
              "hello world" "missing.ttf" ["a.png"] "out.mp4" disk)
    as [H _].
  destruct (font_failure_is_raised_up_front (Api.config "/tmp") (studio 6000)
              "hello world" "missing.ttf" ["a.png"] "out.mp4" disk)
    as [H' _].
  split.
  - apply H. reflexivity.
  - apply H'. reflexivity.
Defined.

(** C3, the claim as stated, fails. With an empty text (and likewise a text
    of blanks) the run ends in the [ZeroDivisionError] of
    [full_audio_duration / len(words)] when the speech collaborator accepts
    the text, and in that collaborator's own exception when it refuses it;
    neither is an [InvalidInputError]. *)
Lemma empty_text_is_not_an_InvalidInputError :
  fst (App.text_to_video App.config (studio 0) "" "font.ttf" ["a.png"]
         "out.mp4" disk) = Raise ZeroDivisionError /\
  fst (Api.text_to_video (Api.config "/tmp") (studio 0) "   " "font.ttf"
         ["a.png"] "out.mp4" disk) = Raise ZeroDivisionError /\
  fst (App.text_to_video App.config studio_without_speech "" "font.ttf"
         ["a.png"] "out.mp4" disk) = Raise SpeechError /\
  spec_error_of ZeroDivisionError <> Some InvalidInputError /\
  spec_error_of SpeechError <> Some InvalidInputError.
Proof.
  split; [reflexivity|]. split; [reflexivity|]. split; [reflexivity|].
  split; discriminate.
Qed.

(** C3 (amended). For every text without a word (empty or blank), both
    versions raise an exception before any frame is rendered, any per-word
    duration produced or any video assembled, so no NaN or infinite duration
    arises.
    The exception is that of the first step to fail: the font load, the
    speech synthesis, the audio decoding, and otherwise the
    [ZeroDivisionError] of the division by [len(words)]; it is that
    [ZeroDivisionError] whenever the three collaborators succeed. *)
Theorem zero_words_raise_before_any_duration
    (g : globals) (c : collaborators) (text font_path : string)
    (background_images : list string) (outputfile : string) (w : world) :
  split text = [] ->
  let app := App.text_to_video g c text font_path background_images outputfile w in
  let api := Api.text_to_video g c text font_path background_images outputfile w in
  (exists e evs,
     fst app = Raise e /\
     In e [TruetypeError; SpeechError; AudioError; ZeroDivisionError] /\
     trace (snd app) = (trace w ++ evs)%list /\ quiet evs = true) /\
  (exists e evs,
     fst api = Raise e /\
     In e [FileNotFoundError; TruetypeError; SpeechError; AudioError;
           ZeroDivisionError] /\
     trace (snd api) = (trace w ++ evs)%list /\ quiet evs = true) /\
  (mem font_path (fs w) = true ->
   font_loads c font_path (FONT_SIZE g) = true ->
   tts_accepts c text "en" = true ->
   tts_saves c text "en" = true ->
   audio_len c text "en" <> None ->
   fst app = Raise ZeroDivisionError /\ fst api = Raise ZeroDivisionError).
Proof.
  intros Hwords app api.
  assert (Hcore : forall temp,
            let run := synthesize_and_assemble g c temp text font_path
                         background_images outputfile w in
            (exists e evs,
               fst run = Raise e /\
               In e [TruetypeError; SpeechError; AudioError; ZeroDivisionError] /\
               trace (snd run) = (trace w ++ evs)%list /\ quiet evs = true) /\
            (mem font_path (fs w) = true ->
             font_loads c font_path (FONT_SIZE g) = true ->
             tts_accepts c text "en" = true ->
             tts_saves c text "en" = true ->
             audio_len c text "en" <> None ->
             fst run = Raise ZeroDivisionError)).
  { intros temp run. unfold run. rewrite synthesize_and_assemble_eq, Hwords.
    destruct (mem font_path (fs w)); cbn [andb negb].
    2:{ split; [|discriminate]. exists TruetypeError. eexists.
        cbn. repeat split; auto. }
    destruct (font_loads c font_path (FONT_SIZE g)); cbn [negb].
    2:{ split; [|discriminate]. exists TruetypeError. eexists.
        cbn. repeat split; auto. }
    destruct (tts_accepts c text "en"); cbn [negb].
    2:{ split; [|discriminate]. exists SpeechError. eexists.
        cbn. repeat split; auto. }
    destruct (tts_saves c text "en"); cbn [negb].
    2:{ split; [|discriminate]. exists SpeechError. eexists.
        cbn. repeat split; auto. }
    cbv zeta.
    destruct (audio_len c text "en") as [ms|].
    2:{ split; [|congruence]. exists AudioError. eexists.
        cbn. repeat split; auto. }
    split; [|reflexivity]. exists ZeroDivisionError. eexists.
    cbn. repeat split; auto 6. }
  split; [|split].
  - apply (Hcore App.temp_audio_path).
  - unfold api.
    rewrite (Api_text_to_video_eq g c (Api.temp_audio_path g)) by reflexivity.
    destruct (mem font_path (fs w)) eqn:Hm.
    + destruct (Hcore (Api.temp_audio_path g)) as [(e & evs & He & Hin & Ht & Hq) _].
      exists e, evs. repeat split; try assumption. right. exact Hin.
    + exists FileNotFoundError, []. cbn. rewrite app_nil_r. repeat split; auto.
  - intros Hmem Hfont Hacc Htts Haudio. split.
    + apply (Hcore App.temp_audio_path); assumption.
    + unfold api.
      rewrite (Api_text_to_video_eq g c (Api.temp_audio_path g)) by reflexivity.
      rewrite Hmem. apply (Hcore (Api.temp_audio_path g)); assumption.
Qed.

Lemma zero_words_raise_before_any_duration_witness :
  split "  " = [] /\
  fst (App.text_to_video App.config (studio 0) "  " "font.ttf" ["a.png"]
         "out.mp4" disk) = Raise ZeroDivisionError.
Proof.
  split; [reflexivity|].
  destruct (zero_words_raise_before_any_duration App.config (studio 0) "  "
              "font.ttf" ["a.png"] "out.mp4" disk) as (_ & _ & H).
  - reflexivity.
  - apply H; [reflexivity | reflexivity | reflexivity | reflexivity | discriminate].
Defined.

(** A successful run of the shared body: one drawn frame per word, in word
    order, the same duration for each, all handed to the video writer. *)
Lemma synthesize_and_assemble_ok
    (g : globals) (c : collaborators) (temp text font_path : string)
    (background_images : list string) (outputfile : string) (w w' : world) :
  synthesize_and_assemble g c temp text font_path background_images outputfile w
  = (Ok tt, w') ->
  exists evs images ms,
    trace w' = (trace w ++ evs)%list /\
    drawn evs = images /\
    written evs
    = [(images, repeat (avg_word_duration ms (List.length (split text)))
                  (List.length (split text)))] /\
    map frame_word images = split text /\
    audio_len c text "en" = Some ms /\
    mem temp (fs w') = false.
Proof.
  intros Hrun. rewrite synthesize_and_assemble_eq in Hrun.
  destruct (negb (mem font_path (fs w) && font_loads c font_path (FONT_SIZE g)));
    [discriminate|].
  destruct (negb (tts_accepts c text "en")); [discriminate|].
  destruct (negb (tts_saves c text "en")); [discriminate|].
  cbv zeta in Hrun.
  destruct (audio_len c text "en") as [ms|]; [|discriminate].
  destruct (split text) as [|word rest] eqn:Hwords; [discriminate|].
  destruct (nth_error (BACKGROUND_INTERVALS g) 0) as [t0|]; [|discriminate].
  match type of Hrun with
  | match ?loop with _ => _ end = _ =>
      destruct loop as [[[images durations]|e0] w3] eqn:Hl
  end; [|discriminate].
  destruct (mux_writes c images durations temp); [|discriminate].
  injection Hrun as <-.
  apply frames_loop_inv in Hl.
  destruct Hl as (evs & -> & _ & new & states & Himg & Hw & Hdur & _ & _ & Hdrawn & Hwritten).
  cbn [app] in Himg, Hdur. subst images durations.
  exists ([EvTruetype font_path (FONT_SIZE g); EvSpeech text "en"; EvSave temp;
           EvFromFile temp] ++ evs
          ++ [EvAudioFileClip temp;
              EvWriteVideofile new
                (repeat (avg_word_duration ms (List.length (word :: rest)))
                   (List.length (word :: rest)))
                (TEXT_SPEED g) outputfile "libx264";
              EvRemove temp])%list, new, ms.
  split.
  { cbn [trace logged world_after_speech]. rewrite <- !app_assoc. reflexivity. }
  split.
  { rewrite drawn_app, drawn_app, Hdrawn. cbn. apply app_nil_r. }
  split.
  { rewrite written_app, written_app, Hwritten. reflexivity. }
  split; [exact Hw|]. split; [reflexivity|].
  cbn [fs]. apply mem_unlinked.
Qed.

(** C5. Whenever a run of either version completes, it has drawn exactly
    one frame per word of the text, in word order, and handed these frames,
    with as many durations, to the video writer in a single call. *)
Theorem one_frame_per_word
    (g : globals) (c : collaborators) (text font_path : string)
    (background_images : list string) (outputfile : string) (w w' : world) :
  App.text_to_video g c text font_path background_images outputfile w = (Ok tt, w')
  \/ Api.text_to_video g c text font_path background_images outputfile w = (Ok tt, w') ->
  exists evs images durations,
    trace w' = (trace w ++ evs)%list /\
    drawn evs = images /\
    written evs = [(images, durations)] /\
    map frame_word images = split text /\
    List.length images = List.length (split text) /\
    List.length durations = List.length (split text).
Proof.
  intros Hrun.
  assert (Hcore : exists temp,
            synthesize_and_assemble g c temp text font_path background_images
              outputfile w = (Ok tt, w')).
  { destruct Hrun as [Hrun|Hrun].
    - exists App.temp_audio_path. exact Hrun.
    - exists (Api.temp_audio_path g).
      rewrite (Api_text_to_video_eq g c (Api.temp_audio_path g)) in Hrun
        by reflexivity.
      destruct (mem font_path (fs w)); [exact Hrun | discriminate]. }
  destruct Hcore as (temp & Hcore).
  apply synthesize_and_assemble_ok in Hcore.
  destruct Hcore as (evs & images & ms & Htrace & Hdrawn & Hwritten & Hwords & _ & _).
  exists evs, images. eexists.
  split; [exact Htrace|]. split; [exact Hdrawn|]. split; [exact Hwritten|].
  split; [exact Hwords|]. split.
  - rewrite <- Hwords. symmetry. apply length_map.
  - apply repeat_length.
Qed.

Lemma one_frame_per_word_witness :
  exists evs images durations,
    written evs = [(images, durations)] /\
    map frame_word images = ["one"; "two"; "three"] /\
    List.length durations = 3%nat.
Proof.
  destruct (one_frame_per_word App.config (studio 6000) "one two three"
              "font.ttf" ["a.png"] "out.mp4" disk
              (snd (App.text_to_video App.config (studio 6000) "one two three"
                      "font.ttf" ["a.png"] "out.mp4" disk)))
    as (evs & images & durations & _ & _ & Hwritten & Hwords & _ & Hlen).
  - left. reflexivity.
  - exists evs, images, durations.
    split; [exact Hwritten|]. split; [exact Hwords | exact Hlen].
Defined.

Lemma change_background_ok (intervals : list Z) (n : nat) (s : sched) :
  n <> O -> (current_background_index s < n)%nat ->
  exists s1, change_background intervals n s = Ok s1 /\
             (current_background_index s1 < n)%nat.
Proof.
  intros Hn Hs.
  destruct (float_ge_int (image_duration s) (background_change_time s)) eqn:Hge.
  - rewrite change_background_due by assumption.
    eexists. split; [reflexivity|]. cbn. apply Nat.mod_upper_bound. exact Hn.
  - rewrite change_background_idle by assumption.
    exists s. split; [reflexivity | exact Hs].
Qed.

(** The loop completes when every background exists and decodes. *)
Lemma frames_loop_succeeds
    (g : globals) (c : collaborators) (fnt : string * Z)
    (background_images : list string) (avg : float) (words : list string) :
  forall (s : sched) (images : list frame) (durations : list float) (w : world),
    (forall p, In p background_images ->
               mem p (fs w) = true /\ image_loads c p = true) ->
    (current_background_index s < List.length background_images)%nat ->
    exists out w',
      frames_loop g c fnt background_images avg words s images durations w
      = (Ok out, w').
Proof.
  induction words as [|word rest IH]; intros s images durations w Hbg Hs.
  - eexists. eexists. reflexivity.
  - cbn [frames_loop].
    cbv [bind lift ret raise emit on_disk Image_open_resize index].
    destruct (change_background_ok (BACKGROUND_INTERVALS g)
                (List.length background_images) s) as (s1 & -> & Hs1);
      [lia | exact Hs |].
    destruct (nth_error background_images (current_background_index s1))
      as [path|] eqn:Hpath.
    2:{ apply nth_error_None in Hpath. lia. }
    cbn [fs trace].
    destruct (Hbg path (nth_error_In _ _ Hpath)) as [-> ->]. cbn [andb].
    destruct (getbbox c fnt word) as [[[x0 y0] x1] y1].
    cbn [fs trace]. apply IH; [exact Hbg | exact Hs1].
Qed.

Lemma synthesize_and_assemble_succeeds
    (g : globals) (c : collaborators) (temp text font_path : string)
    (background_images : list string) (outputfile : string) (w : world) :
  mem font_path (fs w) = true ->
  font_loads c font_path (FONT_SIZE g) = true ->
  tts_accepts c text "en" = true ->
  tts_saves c text "en" = true ->
  audio_len c text "en" <> None ->
  split text <> [] ->
  BACKGROUND_INTERVALS g <> [] ->
  background_images <> [] ->
  (forall p, In p background_images ->
             mem p (fs w) = true /\ image_loads c p = true) ->
  (forall images durations audio, mux_writes c images durations audio = true) ->
  exists w',
    synthesize_and_assemble g c temp text font_path background_images
      outputfile w = (Ok tt, w').
Proof.
  intros Hmem Hfont Hacc Htts Haudio Hwords Hint Hne Hbg Hmux.
  rewrite synthesize_and_assemble_eq, Hmem, Hfont, Hacc, Htts.
  cbn [andb negb]. cbv zeta.
  destruct (audio_len c text "en") as [ms|]; [|congruence].
  destruct (split text) as [|word rest]; [congruence|].
  destruct (BACKGROUND_INTERVALS g) as [|t0 ts]; [congruence|].
  cbn [nth_error].
  destruct (frames_loop_succeeds g c (font_path, FONT_SIZE g) background_images
              (avg_word_duration ms (List.length (word :: rest))) (word :: rest)
              (mkSched 0 t0 0) [] []
              (world_after_speech g temp text font_path w))
    as ([images durations] & w3 & ->).
  - intros p Hp. destruct (Hbg p Hp) as [Hp1 Hp2]. split; [|exact Hp2].
    unfold world_after_speech. cbn [fs]. apply mem_created_other. exact Hp1.
  - cbn. destruct background_images; [congruence | cbn; lia].
  - rewrite Hmux. eexists. reflexivity.
Qed.

(** A completed run of the shared body, down to the run of its loop. *)
Lemma synthesize_and_assemble_ok_loop
    (g : globals) (c : collaborators) (temp text font_path : string)
    (background_images : list string) (outputfile : string) (w w' : world) :
  synthesize_and_assemble g c temp text font_path background_images outputfile w
  = (Ok tt, w') ->
  exists ms t0 images durations evs,
    audio_len c text "en" = Some ms /\
    nth_error (BACKGROUND_INTERVALS g) 0 = Some t0 /\
    split text <> [] /\
    frames_loop g c (font_path, FONT_SIZE g) background_images
      (avg_word_duration ms (List.length (split text))) (split text)
      (mkSched 0 t0 0) [] [] (world_after_speech g temp text font_path w)
    = (Ok (images, durations),
       logged (world_after_speech g temp text font_path w) evs) /\
    trace w'
    = (trace w
       ++ [EvTruetype font_path (FONT_SIZE g); EvSpeech text "en"; EvSave temp;
           EvFromFile temp]
       ++ evs
       ++ [EvAudioFileClip temp;
           EvWriteVideofile images durations (TEXT_SPEED g) outputfile "libx264";
           EvRemove temp])%list.
Proof.
  intros Hrun. rewrite synthesize_and_assemble_eq in Hrun.
  destruct (negb (mem font_path (fs w) && font_loads c font_path (FONT_SIZE g)));
    [discriminate|].
  destruct (negb (tts_accepts c text "en")); [discriminate|].
  destruct (negb (tts_saves c text "en")); [discriminate|].
  cbv zeta in Hrun.
  destruct (audio_len c text "en") as [ms|]; [|discriminate].
  destruct (split text) as [|word rest] eqn:Hwords; [discriminate|].
  destruct (nth_error (BACKGROUND_INTERVALS g) 0) as [t0|]; [|discriminate].
  match type of Hrun with
  | match ?loop with _ => _ end = _ =>
      destruct loop as [[[images durations]|e0] w3] eqn:Hl
  end; [|discriminate].
  destruct (mux_writes c images durations temp); [|discriminate].
  injection Hrun as <-.
  pose proof Hl as Hinv. apply frames_loop_inv in Hinv.
  destruct Hinv as (evs & -> & _).
  exists ms, t0, images, durations, evs.
  split; [reflexivity|]. split; [reflexivity|]. split; [discriminate|].
  split; [exact Hl|].
  cbn [trace logged world_after_speech]. rewrite <- !app_assoc. reflexivity.
Qed.

Lemma text_to_video_ok_core
    (g : globals) (c : collaborators) (text font_path : string)
    (background_images : list string) (outputfile : string) (w w' : world) :
  App.text_to_video g c text font_path background_images outputfile w = (Ok tt, w')
  \/ Api.text_to_video g c text font_path background_images outputfile w = (Ok tt, w') ->
  exists temp,
    synthesize_and_assemble g c temp text font_path background_images
      outputfile w = (Ok tt, w').
Proof.
  intros [Hrun|Hrun].
  - exists App.temp_audio_path. exact Hrun.
  - exists (Api.temp_audio_path g).
    rewrite (Api_text_to_video_eq g c (Api.temp_audio_path g)) in Hrun
      by reflexivity.
    destruct (mem font_path (fs w)); [exact Hrun | discriminate].
Qed.






(** C10. For every text with at least one word and an empty list of
    backgrounds, once the font is loaded and the speech synthesised and
    measured, both versions raise [IndexError] at the first word: the lookup
    [background_images[0]] is not guarded, no frame has been rendered, and
    the exception is none of the structured errors of the specification.
    The modulo by [len(background_images)] is unguarded too: with no image,
    a due switch raises [ZeroDivisionError]. (The first threshold being
    positive, as in the source, the first word meets the lookup, not the
    modulo.) *)
Theorem empty_backgrounds_raise_IndexError
    (g : globals) (c : collaborators) (text font_path outputfile : string)
    (w : world) (ms t0 : Z) :
  split text <> [] ->
  mem font_path (fs w) = true ->
  font_loads c font_path (FONT_SIZE g) = true ->
  tts_accepts c text "en" = true ->
  tts_saves c text "en" = true ->
  audio_len c text "en" = Some ms ->
  nth_error (BACKGROUND_INTERVALS g) 0 = Some t0 ->
  0 < t0 ->
  App.text_to_video g c text font_path [] outputfile w
  = (Raise IndexError,
     world_after_speech g App.temp_audio_path text font_path w) /\
  Api.text_to_video g c text font_path [] outputfile w
  = (Raise IndexError,
     world_after_speech g (Api.temp_audio_path g) text font_path w) /\
  (forall temp,
     drawn (trace (world_after_speech g temp text font_path w))
     = drawn (trace w)) /\
  spec_error_of IndexError = None /\
  (forall intervals s,
     float_ge_int (image_duration s) (background_change_time s) = true ->
     change_background intervals 0 s = Raise ZeroDivisionError).
Proof.
  intros Hwords Hmem Hfont Hacc Htts Haudio Ht0 Hpos.
  assert (Hcore : forall temp,
            synthesize_and_assemble g c temp text font_path [] outputfile w
            = (Raise IndexError, world_after_speech g temp text font_path w)).
  { intros temp. rewrite synthesize_and_assemble_eq, Hmem, Hfont, Hacc, Htts, Haudio, Ht0.
    cbn [andb negb]. cbv zeta.
    destruct (split text) as [|word rest]; [congruence|].
    cbn [frames_loop].
    cbv [bind lift ret raise emit on_disk Image_open_resize index].
    rewrite change_background_idle.
    - reflexivity.
    - cbn [image_duration background_change_time]. unfold float_ge_int.
      change (Prim2SF 0) with (S754_zero false). cbv iota.
      apply Z.leb_gt. exact Hpos. }
  split; [apply Hcore|]. split.
  - rewrite (Api_text_to_video_eq g c (Api.temp_audio_path g)) by reflexivity.
    rewrite Hmem. apply Hcore.
  - split.
    { intros temp. unfold world_after_speech. cbn [trace].
      rewrite drawn_app. cbn. apply app_nil_r. }
    split; [reflexivity|].
    intros intervals s Hge. apply change_background_no_images; [reflexivity | exact Hge].
Qed.

Lemma empty_backgrounds_raise_IndexError_witness :
  fst (App.text_to_video App.config (studio 6000) "hello world" "font.ttf" []
         "out.mp4" disk) = Raise IndexError /\
  fst (Api.text_to_video (Api.config "/tmp") (studio 6000) "hello world"
         "font.ttf" [] "out.mp4" disk) = Raise IndexError.
Proof.
  destruct (empty_backgrounds_raise_IndexError App.config (studio 6000)
              "hello world" "font.ttf" "out.mp4" disk 6000 10)
    as (H & _); try reflexivity; [discriminate|].
  destruct (empty_backgrounds_raise_IndexError (Api.config "/tmp") (studio 6000)
              "hello world" "font.ttf" "out.mp4" disk 6000 10)
    as (_ & H' & _); try reflexivity; [discriminate|].
  rewrite H, H'. split; reflexivity.
Defined.

(** Where the temporary audio file ends up: a run that completes has
    removed it; a run that raises after the speech was saved has not. *)
Lemma temp_audio_removed_only_on_success
    (g : globals) (c : collaborators) (temp text font_path : string)
    (background_images : list string) (outputfile : string) (w : world) :
  let run := synthesize_and_assemble g c temp text font_path background_images
               outputfile w in
  match fst run with
  | Ok _ => mem temp (fs (snd run)) = false
  | Raise e =>
      e = TruetypeError \/ e = SpeechError \/ mem temp (fs (snd run)) = true
  end.
Proof.
  intros run. unfold run. rewrite synthesize_and_assemble_eq.
  destruct (negb (mem font_path (fs w) && font_loads c font_path (FONT_SIZE g)));
    [left; reflexivity|].
  destruct (negb (tts_accepts c text "en")); [right; left; reflexivity|].
  destruct (negb (tts_saves c text "en")); [right; left; reflexivity|].
  cbv zeta.
  assert (Hkept : mem temp (fs (world_after_speech g temp text font_path w)) = true)
    by (unfold world_after_speech; cbn [fs]; apply mem_created).
  destruct (audio_len c text "en") as [ms|]; [|right; right; exact Hkept].
  destruct (split text) as [|word rest]; [right; right; exact Hkept|].
  destruct (nth_error (BACKGROUND_INTERVALS g) 0) as [t0|];
    [|right; right; exact Hkept].
  match goal with
  | |- context [match ?loop with _ => _ end] =>
      destruct loop as [[[images durations]|e0] w3] eqn:Hl
  end.
  - apply frames_loop_inv in Hl. destruct Hl as (evs & -> & _).
    destruct (mux_writes c images durations temp).
    + cbn [fst snd fs]. apply mem_unlinked.
    + right. right. cbn [fst snd]. apply with_files_keeps. exact Hkept.
  - apply frames_loop_inv in Hl. destruct Hl as (evs & -> & _).
    right. right. exact Hkept.
Qed.

(** C6: the code at failing inputs. With no background ([IndexError] at the
    first word) and with a video writer that fails ([MuxError]), the run of
    either version ends with the temporary audio file still on disk, and
    [os.remove] was never called. *)
Theorem temp_audio_left_behind_on_failure :
  let app_no_bg := App.text_to_video App.config (studio 6000) "hello world"
                     "font.ttf" [] "out.mp4" disk in
  let app_mux := App.text_to_video App.config (studio_failing_mux 6000)
                   "hello world" "font.ttf" ["a.png"] "out.mp4" disk in
  let api_no_bg := Api.text_to_video (Api.config "/tmp") (studio 6000)
                     "hello world" "font.ttf" [] "out.mp4" disk in
  let api_mux := Api.text_to_video (Api.config "/tmp") (studio_failing_mux 6000)
                   "hello world" "font.ttf" ["a.png"] "out.mp4" disk in
  (fst app_no_bg = Raise IndexError /\
   mem "temp.mp3" (fs (snd app_no_bg)) = true /\
   ~ In (EvRemove "temp.mp3") (trace (snd app_no_bg))) /\
  (fst app_mux = Raise MuxError /\
   mem "temp.mp3" (fs (snd app_mux)) = true /\
   ~ In (EvRemove "temp.mp3") (trace (snd app_mux))) /\
  (fst api_no_bg = Raise IndexError /\
   mem "/tmp/temp.mp3" (fs (snd api_no_bg)) = true /\
   ~ In (EvRemove "/tmp/temp.mp3") (trace (snd api_no_bg))) /\
  (fst api_mux = Raise MuxError /\
   mem "/tmp/temp.mp3" (fs (snd api_mux)) = true /\
   ~ In (EvRemove "/tmp/temp.mp3") (trace (snd api_mux))).
Proof.
  cbv zeta.
  repeat split; try reflexivity;
    vm_compute; intros H;
    repeat (destruct H as [H|H]; [discriminate H|]); exact H.
Qed.

(** C9. The constant [TIMING_ADJUSTMENT] is never read: two runs of either
    version that differ only in its value are the same function of the
    world, hence produce the same result, files and calls (frames and
    durations included). *)
Theorem TIMING_ADJUSTMENT_is_never_read
    (g : globals) (t : float) (c : collaborators) (text font_path : string)
    (background_images : list string) (outputfile : string) :
  App.text_to_video (set_TIMING_ADJUSTMENT t g) c text font_path
    background_images outputfile
  = App.text_to_video g c text font_path background_images outputfile /\
  Api.text_to_video (set_TIMING_ADJUSTMENT t g) c text font_path
    background_images outputfile
  = Api.text_to_video g c text font_path background_images outputfile.
Proof. split; reflexivity. Qed.

(** ** A narration of 38 words over five backgrounds

    [src/app.py] on 38 words lasting 190 seconds (5 seconds a word), with
    five backgrounds. Words 0-1 are drawn over the first background, 2-8
    over the second (switch when the elapsed time reaches 10), 9-22 over the
    third (switch at 35 >= 32), 23-36 over the fourth, whose index 3 is
    outside the threshold list, and word 37 over the fifth: the switches go
    on after the list is exhausted. *)
Example backgrounds_of_38_words :
  let run := App.text_to_video App.config (studio 190000) narration38
               "font.ttf" ["a.png"; "b.png"; "c.png"; "d.png"; "e.png"]
               "out.mp4" disk in
  fst run = Ok tt /\
  map frame_background (drawn (trace (snd run)))
  = (repeat "a.png" 2 ++ repeat "b.png" 7 ++ repeat "c.png" 14
     ++ repeat "d.png" 14 ++ ["e.png"])%list /\
  map snd (written (trace (snd run))) = [repeat 5%float 38].
Proof. vm_compute. repeat split; reflexivity. Qed.

(** * Further properties *)

(** ** [allowed_file] *)

Lemma rsplit_last_None (sep : ascii) (s : string) :
  rsplit_last sep s = None <-> contains sep s = false.
Proof.
  induction s as [|a rest IH]; cbn.
  - tauto.
  - destruct (rsplit_last sep rest) as [[before after]|].
    + split; [discriminate|]. intros H. apply orb_false_elim in H.
      destruct H as [_ H]. apply IH in H. discriminate H.
    + destruct (Ascii.eqb a sep); cbn.
      * split; discriminate.
      * split; [|reflexivity]. intros _. apply IH. reflexivity.
Qed.

Lemma rsplit_last_Some (sep : ascii) (s before after : string) :
  rsplit_last sep s = Some (before, after) <->
  s = (before ++ String sep after)%string /\ contains sep after = false.
Proof.
  split.
  - revert before. induction s as [|a rest IH]; intros before; cbn.
    + discriminate.
    + destruct (rsplit_last sep rest) as [[b' a']|] eqn:E.
      * intros H. injection H as <- <-.
        destruct (IH b' eq_refl) as [-> Hc]. split; [reflexivity | exact Hc].
      * destruct (Ascii.eqb a sep) eqn:Ea; [|discriminate].
        intros H. injection H as <- <-. apply Ascii.eqb_eq in Ea. subst a.
        split; [reflexivity|]. apply rsplit_last_None. exact E.
  - intros [-> Hc]. induction before as [|a before IH]; cbn.
    + apply rsplit_last_None in Hc. rewrite Hc, Ascii.eqb_refl. reflexivity.
    + rewrite IH. reflexivity.
Qed.

(** X1. [allowed_file] never raises (the test for a dot guards the index
    [[1]]), and accepts exactly the names of the form stem + "." + ext where
    [ext] has no dot and its lower case is one of the allowed extensions;
    the stem is free: empty, or with dots of its own. *)
Theorem allowed_file_accepts_iff (name : string) :
  (exists verdict, allowed_file name = Ok verdict) /\
  (allowed_file name = Ok true <->
   exists stem ext,
     name = (stem ++ "." ++ ext)%string /\
     contains "."%char ext = false /\
     mem (lower ext) ALLOWED_EXTENSIONS = true).
Proof.
  unfold allowed_file, rsplit1.
  destruct (contains "."%char name) eqn:Hdot.
  - destruct (rsplit_last "."%char name) as [[stem ext]|] eqn:Hsplit.
    + cbn. apply rsplit_last_Some in Hsplit. destruct Hsplit as [-> Hext].
      split; [eexists; reflexivity|]. split.
      * intros H. injection H as H. exists stem, ext. auto.
      * intros (stem' & ext' & Hname & Hext' & Hmem).
        assert (E : rsplit_last "."%char (stem ++ String "."%char ext)%string
                    = Some (stem', ext')).
        { apply rsplit_last_Some. split; [exact Hname | exact Hext']. }
        assert (E' : rsplit_last "."%char (stem ++ String "."%char ext)%string
                     = Some (stem, ext)).
        { apply rsplit_last_Some. split; [reflexivity | exact Hext]. }
        rewrite E' in E. injection E as _ ->. rewrite Hmem. reflexivity.
    + apply rsplit_last_None in Hsplit. congruence.
  - split; [eexists; reflexivity|]. split; [discriminate|].
    intros (stem & ext & Hname & Hext & _).
    assert (E : rsplit_last "."%char name = Some (stem, ext)).
    { apply rsplit_last_Some. split; [exact Hname | exact Hext]. }
    apply rsplit_last_None in Hdot. congruence.
Qed.

Lemma lower_char_dot (c : ascii) :
  Ascii.eqb (lower_char c) "."%char = Ascii.eqb c "."%char.
Proof. destruct c as [[] [] [] [] [] [] [] []]; reflexivity. Qed.

Lemma lower_char_idem (c : ascii) : lower_char (lower_char c) = lower_char c.
Proof. destruct c as [[] [] [] [] [] [] [] []]; reflexivity. Qed.

Lemma lower_idem (s : string) : lower (lower s) = lower s.
Proof.
  induction s as [|c rest IH]; cbn; [reflexivity|].
  rewrite lower_char_idem, IH. reflexivity.
Qed.

Lemma contains_dot_lower (s : string) :
  contains "."%char (lower s) = contains "."%char s.
Proof.
  induction s as [|c rest IH]; cbn; [reflexivity|].
  rewrite lower_char_dot, IH. reflexivity.
Qed.

Lemma rsplit_last_lower (s : string) :
  rsplit_last "."%char (lower s)
  = match rsplit_last "."%char s with
    | Some (before, after) => Some (lower before, lower after)
    | None => None
    end.
Proof.
  induction s as [|c rest IH]; cbn; [reflexivity|].
  rewrite IH. destruct (rsplit_last "."%char rest) as [[before after]|].
  - reflexivity.
  - rewrite lower_char_dot. destruct (Ascii.eqb c "."%char); reflexivity.
Qed.

Lemma allowed_file_lower (name : string) :
  allowed_file (lower name) = allowed_file name.
Proof.
  unfold allowed_file, rsplit1.
  rewrite contains_dot_lower, rsplit_last_lower.
  destruct (contains "."%char name); [|reflexivity].
  destruct (rsplit_last "."%char name) as [[before after]|]; cbn.
  - rewrite lower_idem. reflexivity.
  - reflexivity.
Qed.

(** X2. The verdict of [allowed_file] does not depend on the case of the
    name: two names with the same lower case get the same verdict. *)
Theorem allowed_file_ignores_case (name1 name2 : string) :
  lower name1 = lower name2 -> allowed_file name1 = allowed_file name2.
Proof.
  intros H. rewrite <- (allowed_file_lower name1), <- (allowed_file_lower name2), H.
  reflexivity.
Qed.

Lemma allowed_file_ignores_case_witness :
  allowed_file "Photo.JPEG" = allowed_file "photo.jpeg".
Proof. apply (allowed_file_ignores_case "Photo.JPEG" "photo.jpeg"). reflexivity. Defined.

(** ** [str.split()] *)

Lemma no_space_app (s t : string) :
  no_space (s ++ t) = (no_space s && no_space t)%bool.
Proof.
  induction s as [|c rest IH]; cbn; [reflexivity|].
  rewrite IH. apply andb_assoc.
Qed.

Lemma append_nil_r (s : string) : (s ++ "")%string = s.
Proof. induction s as [|c rest IH]; cbn; [reflexivity | rewrite IH; reflexivity]. Qed.

Lemma append_assoc (s t u : string) : ((s ++ t) ++ u)%string = (s ++ (t ++ u))%string.
Proof. induction s as [|c rest IH]; cbn; [reflexivity | rewrite IH; reflexivity]. Qed.

Lemma append_nonempty (s : string) (c : ascii) :
  (s ++ String c "")%string <> EmptyString.
Proof. destruct s; discriminate. Qed.

Lemma split_from_words (s word : string) :
  no_space word = true -> Forall is_word (split_from word s).
Proof.
  revert word. induction s as [|c rest IH]; intros word Hword; cbn.
  - destruct word as [|a word']; constructor; [|constructor].
    split; [discriminate | exact Hword].
  - destruct (isspace c) eqn:Hc.
    + destruct word as [|a word'].
      * apply IH. reflexivity.
      * constructor; [split; [discriminate | exact Hword]|].
        apply IH. reflexivity.
    + apply IH. rewrite no_space_app, Hword. cbn. rewrite Hc. reflexivity.
Qed.

(** X3. Every word [text.split()] gives is non-empty and contains no
    whitespace, whatever the text. *)
Theorem split_gives_words (text : string) : Forall is_word (split text).
Proof. apply split_from_words. reflexivity. Qed.

Lemma split_from_app (w rest acc : string) :
  no_space w = true ->
  split_from acc (w ++ rest) = split_from (acc ++ w) rest.
Proof.
  revert acc. induction w as [|c w' IH]; intros acc Hw; cbn.
  - rewrite append_nil_r. reflexivity.
  - cbn in Hw. apply andb_prop in Hw. destruct Hw as [Hc Hw'].
    apply negb_true_iff in Hc. rewrite Hc.
    rewrite IH by exact Hw'. rewrite append_assoc. reflexivity.
Qed.

(** X4. Round trip with [" ".join]: the words joined by single blanks
    split back into the same words. *)
Theorem split_of_joined_words (ws : list string) :
  Forall is_word ws -> split (String.concat " " ws) = ws.
Proof.
  unfold split. induction ws as [|w ws IH]; intros Hws.
  - reflexivity.
  - inversion Hws as [|? ? [Hne Hns] Hrest]; subst.
    destruct ws as [|w' ws'].
    + cbn [String.concat].
      rewrite <- (append_nil_r w) at 1. rewrite split_from_app by exact Hns.
      cbn. destruct w; [contradiction | reflexivity].
    + cbn [String.concat]. rewrite split_from_app by exact Hns.
      cbn [append split_from]. change (isspace " "%char) with true. cbv iota.
      destruct w as [|a w0]; [contradiction|]. cbn [append].
      f_equal. apply IH. exact Hrest.
Qed.

Lemma split_of_joined_words_witness :
  split (String.concat " " ["to"; "be"; "or"; "not"]) = ["to"; "be"; "or"; "not"].
Proof.
  apply (split_of_joined_words ["to"; "be"; "or"; "not"]).
  repeat constructor; discriminate.
Defined.

(** ** More on [text_to_video] *)

Lemma mem_created_neq (p q : string) (ps : list string) :
  p <> q -> mem p (if mem q ps then ps else q :: ps) = mem p ps.
Proof.
  intros Hpq. destruct (mem q ps); [reflexivity|].
  unfold mem. cbn. apply String.eqb_neq in Hpq. rewrite Hpq. reflexivity.
Qed.

Lemma mem_unlinked_neq (p t : string) (ps : list string) :
  p <> t -> mem p (filter (fun q => negb (String.eqb t q)) ps) = mem p ps.
Proof.
  intros Hpt. unfold mem. induction ps as [|q ps IH]; cbn; [reflexivity|].
  destruct (String.eqb t q) eqn:E; cbn.
  - apply String.eqb_eq in E. subst q.
    apply String.eqb_neq in Hpt. rewrite Hpt. exact IH.
  - rewrite IH. reflexivity.
Qed.

(** Whatever its outcome, the loop has drawn frames for a prefix of the
    words, each over one of the supplied backgrounds, and written nothing. *)
Lemma frames_loop_any
    (g : globals) (c : collaborators) (fnt : string * Z)
    (background_images : list string) (avg : float) (words : list string) :
  forall (s : sched) (images : list frame) (durations : list float)
         (w : world) (r : result (list frame * list float)) (w' : world),
    frames_loop g c fnt background_images avg words s images durations w = (r, w') ->
    exists evs rest,
      w' = logged w evs /\
      written evs = [] /\
      words = (map frame_word (drawn evs) ++ rest)%list /\
      Forall (fun f => In (frame_background f) background_images) (drawn evs) /\
      match r with Ok _ => rest = [] | Raise _ => rest <> [] end.
Proof.
  induction words as [|word rest IH]; intros s images durations w r w' Hrun.
  - cbn in Hrun. unfold ret in Hrun. injection Hrun as <- <-.
    exists [], []. rewrite logged_nil. repeat split. constructor.
  - cbn [frames_loop] in Hrun.
    cbv [bind lift ret raise emit on_disk Image_open_resize index] in Hrun.
    destruct (change_background (BACKGROUND_INTERVALS g)
                (List.length background_images) s) as [s1|e].
    2:{ injection Hrun as <- <-. exists [], (word :: rest). rewrite logged_nil.
        repeat split; [constructor | discriminate]. }
    destruct (nth_error background_images (current_background_index s1))
      as [path|] eqn:Hpath.
    2:{ injection Hrun as <- <-. exists [], (word :: rest). rewrite logged_nil.
        repeat split; [constructor | discriminate]. }
    cbn [fs trace] in Hrun.
    destruct (mem path (fs w) && image_loads c path)%bool.
    2:{ injection Hrun as <- <-.
        exists [EvOpenResize path (VIDEO_SIZE g)], (word :: rest).
        repeat split; [constructor | discriminate]. }
    destruct (getbbox c fnt word) as [[[x0 y0] x1] y1].
    cbn [fs trace] in Hrun.
    match type of Hrun with
    | frames_loop _ _ _ _ _ _ _ (_ ++ [?f])%list _ ?w1 = _ =>
        set (img := f) in *; set (w1' := w1) in *
    end.
    apply IH in Hrun.
    destruct Hrun as (evs & rest' & -> & Hwritten & Hwords & Hbgs & Hr).
    exists ([EvOpenResize path (VIDEO_SIZE g); EvDrawText img] ++ evs)%list, rest'.
    split.
    { unfold w1', logged. cbn [fs trace]. rewrite <- !app_assoc. reflexivity. }
    split; [exact Hwritten|].
    split; [cbn; rewrite Hwords; reflexivity|].
    split; [|exact Hr].
    cbn. constructor; [|exact Hbgs].
    cbn. apply (nth_error_In _ _ Hpath).
Qed.

(** With a background to draw on and an index within range, the loop can
    only fail on a background that does not decode. *)
Lemma frames_loop_raises_ImageError
    (g : globals) (c : collaborators) (fnt : string * Z)
    (background_images : list string) (avg : float) (words : list string) :
  forall (s : sched) (images : list frame) (durations : list float)
         (w : world) (e : exn) (w' : world),
    (current_background_index s < List.length background_images)%nat ->
    frames_loop g c fnt background_images avg words s images durations w
    = (Raise e, w') ->
    e = ImageError.
Proof.
  induction words as [|word rest IH]; intros s images durations w e w' Hs Hrun.
  - discriminate Hrun.
  - cbn [frames_loop] in Hrun.
    cbv [bind lift ret raise emit on_disk Image_open_resize index] in Hrun.
    destruct (change_background_ok (BACKGROUND_INTERVALS g)
                (List.length background_images) s) as (s1 & Hs1 & Hlt);
      [lia | exact Hs |].
    rewrite Hs1 in Hrun.
    destruct (nth_error background_images (current_background_index s1))
      as [path|] eqn:Hpath.
    2:{ apply nth_error_None in Hpath. lia. }
    cbn [fs trace] in Hrun.
    destruct (mem path (fs w) && image_loads c path)%bool.
    2:{ injection Hrun as <- _. reflexivity. }
    destruct (getbbox c fnt word) as [[[x0 y0] x1] y1].
    cbn [fs trace] in Hrun.
    apply IH in Hrun; [exact Hrun | exact Hlt].
Qed.

(** The files a run of the shared body leaves. *)
Lemma synthesize_and_assemble_fs
    (g : globals) (c : collaborators) (temp text font_path : string)
    (background_images : list string) (outputfile : string) (w : world) :
  let run := synthesize_and_assemble g c temp text font_path background_images
               outputfile w in
  let saved := if mem temp (fs w) then fs w else temp :: fs w in
  match fst run with
  | Ok _ =>
      fs (snd run)
      = filter (fun q => negb (String.eqb temp q))
          (if mem outputfile saved then saved else outputfile :: saved)
  | Raise _ =>
      fs (snd run) = fs w \/
      exists left, fs (snd run) = fs (with_files (temp :: left) w)
  end.
Proof.
  intros run saved. unfold run. rewrite synthesize_and_assemble_eq.
  destruct (negb (mem font_path (fs w) && font_loads c font_path (FONT_SIZE g)));
    [left; reflexivity|].
  destruct (negb (tts_accepts c text "en")); [left; reflexivity|].
  destruct (negb (tts_saves c text "en")); [right; exists []; reflexivity|].
  cbv zeta.
  destruct (audio_len c text "en") as [ms|]; [|right; exists []; reflexivity].
  destruct (split text) as [|word rest]; [right; exists []; reflexivity|].
  destruct (nth_error (BACKGROUND_INTERVALS g) 0) as [t0|];
    [|right; exists []; reflexivity].
  match goal with
  | |- context [match ?loop with _ => _ end] =>
      destruct loop as [[[images durations]|e0] w3] eqn:Hl
  end; apply frames_loop_inv in Hl; destruct Hl as (evs & -> & _).
  - destruct (mux_writes c images durations temp).
    + reflexivity.
    + right. exists (mux_leaves c outputfile). reflexivity.
  - right. exists []. reflexivity.
Qed.

(** X6. Where the two files of [text_to_video] end up, in both versions.
    A run that completes has removed the temporary audio file and leaves
    the output file on disk (the two paths being different). A run that
    raises anything but a font or a speech failure still has the temporary
    audio file on disk: nothing removes it on the way out. *)
Theorem temp_and_output_after_a_run
    (g : globals) (c : collaborators) (text font_path : string)
    (background_images : list string) (outputfile : string) (w : world) :
  let app := App.text_to_video g c text font_path background_images outputfile w in
  let api := Api.text_to_video g c text font_path background_images outputfile w in
  (fst app = Ok tt ->
   mem App.temp_audio_path (fs (snd app)) = false /\
   (outputfile <> App.temp_audio_path -> mem outputfile (fs (snd app)) = true)) /\
  (fst api = Ok tt ->
   mem (Api.temp_audio_path g) (fs (snd api)) = false /\
   (outputfile <> Api.temp_audio_path g -> mem outputfile (fs (snd api)) = true)) /\
  (forall e, fst app = Raise e ->
     e <> TruetypeError -> e <> SpeechError ->
     mem App.temp_audio_path (fs (snd app)) = true) /\
  (forall e, fst api = Raise e ->
     e <> FileNotFoundError -> e <> TruetypeError -> e <> SpeechError ->
     mem (Api.temp_audio_path g) (fs (snd api)) = true).
Proof.
  intros app api.
  assert (Hcore : forall temp,
            let run := synthesize_and_assemble g c temp text font_path
                         background_images outputfile w in
            (fst run = Ok tt ->
             mem temp (fs (snd run)) = false /\
             (outputfile <> temp -> mem outputfile (fs (snd run)) = true)) /\
            (forall e, fst run = Raise e ->
               e <> TruetypeError -> e <> SpeechError ->
               mem temp (fs (snd run)) = true)).
  { intros temp run.
    pose proof (synthesize_and_assemble_fs g c temp text font_path
                  background_images outputfile w) as Hfs.
    pose proof (temp_audio_removed_only_on_success g c temp text font_path
                  background_images outputfile w) as Htemp.
    cbv zeta in Hfs, Htemp. fold run in Hfs, Htemp.
    destruct (fst run) as [[]|e0].
    - split; [|discriminate]. intros _. split; [exact Htemp|].
      intros Hot. rewrite Hfs, mem_unlinked_neq by exact Hot. apply mem_created.
    - split; [discriminate|].
      intros e He Hfont Hspeech. injection He as <-.
      destruct Htemp as [->|[->|Htemp]]; [congruence | congruence | exact Htemp]. }
  assert (Hapi : api = if mem font_path (fs w)
                       then synthesize_and_assemble g c (Api.temp_audio_path g) text
                              font_path background_images outputfile w
                       else (Raise FileNotFoundError, w)).
  { unfold api.
    apply (Api_text_to_video_eq g c (Api.temp_audio_path g)). reflexivity. }
  split; [apply (Hcore App.temp_audio_path)|].
  split; [|split].
  - rewrite Hapi. destruct (mem font_path (fs w)).
    + apply (Hcore (Api.temp_audio_path g)).
    + discriminate.
  - apply (Hcore App.temp_audio_path).
  - rewrite Hapi. destruct (mem font_path (fs w)).
    + intros e He _. revert e He. apply (Hcore (Api.temp_audio_path g)).
    + intros e He Hmissing. injection He as <-. congruence.
Qed.

Lemma temp_and_output_after_a_run_witness :
  let run := App.text_to_video App.config (studio 6000) "one two three"
               "font.ttf" ["a.png"] "out.mp4" disk in
  let failed := App.text_to_video App.config (studio_failing_mux 6000)
                  "one two three" "font.ttf" ["a.png"] "out.mp4" disk in
  (mem "temp.mp3" (fs (snd run)) = false /\ mem "out.mp4" (fs (snd run)) = true) /\
  mem "temp.mp3" (fs (snd failed)) = true.
Proof.
  destruct (temp_and_output_after_a_run App.config (studio 6000)
              "one two three" "font.ttf" ["a.png"] "out.mp4" disk)
    as (H & _).
  destruct (temp_and_output_after_a_run App.config (studio_failing_mux 6000)
              "one two three" "font.ttf" ["a.png"] "out.mp4" disk)
    as (_ & _ & H' & _).
  split.
  - destruct H as [Htemp Hout]; [reflexivity|].
    split; [exact Htemp | apply Hout; discriminate].
  - apply (H' MuxError); [reflexivity | discriminate | discriminate].
Defined.

(** X7. With at least one background, one word and one interval, no run
    ends in [IndexError] or [ZeroDivisionError]: the index of the scheduler
    stays within the list of backgrounds, so the lookup and the modulo are
    safe, and the only failures left are those of the collaborators. *)
Theorem scheduler_index_stays_in_range
    (g : globals) (c : collaborators) (text font_path : string)
    (background_images : list string) (outputfile : string) (w : world)
    (e : exn) :
  background_images <> [] ->
  BACKGROUND_INTERVALS g <> [] ->
  split text <> [] ->
  (fst (App.text_to_video g c text font_path background_images outputfile w)
   = Raise e ->
   In e [TruetypeError; SpeechError; AudioError; ImageError; MuxError]) /\
  (fst (Api.text_to_video g c text font_path background_images outputfile w)
   = Raise e ->
   In e [FileNotFoundError; TruetypeError; SpeechError; AudioError; ImageError;
         MuxError]).
Proof.
  intros Hbg Hint Hwords.
  assert (Hcore : forall temp,
            fst (synthesize_and_assemble g c temp text font_path
                   background_images outputfile w) = Raise e ->
            In e [TruetypeError; SpeechError; AudioError; ImageError; MuxError]).
  { intros temp. rewrite synthesize_and_assemble_eq.
    destruct (negb (mem font_path (fs w) && font_loads c font_path (FONT_SIZE g))).
    { cbn. intros H. injection H as <-. auto. }
    destruct (negb (tts_accepts c text "en")).
    { cbn. intros H. injection H as <-. auto. }
    destruct (negb (tts_saves c text "en")).
    { cbn. intros H. injection H as <-. auto. }
    cbv zeta.
    destruct (audio_len c text "en") as [ms|].
    2:{ cbn. intros H. injection H as <-. auto. }
    destruct (split text) as [|word rest]; [congruence|].
    destruct (BACKGROUND_INTERVALS g) as [|t0 ts]; [congruence|].
    cbn [nth_error].
    match goal with
    | |- context [match ?loop with _ => _ end] =>
        destruct loop as [[[images durations]|e0] w3] eqn:Hl
    end.
    - destruct (mux_writes c images durations temp); cbn; [discriminate|].
      intros H. injection H as <-. auto 6.
    - cbn. intros H. injection H as <-.
      apply frames_loop_raises_ImageError in Hl.
      + subst e0. auto 6.
      + cbn. destruct background_images; [congruence | cbn; lia]. }
  split; [apply (Hcore App.temp_audio_path)|].
  rewrite (Api_text_to_video_eq g c (Api.temp_audio_path g)) by reflexivity.
  destruct (mem font_path (fs w)).
  - intros H. right. apply (Hcore (Api.temp_audio_path g)). exact H.
  - cbn. intros H. injection H as <-. auto.
Qed.

Lemma scheduler_index_stays_in_range_witness :
  In ImageError [TruetypeError; SpeechError; AudioError; ImageError; MuxError].
Proof.
  destruct (scheduler_index_stays_in_range App.config (studio 6000)
              "one two three" "font.ttf" ["missing.png"] "out.mp4" disk
              ImageError) as [H _]; try discriminate.
  apply H. reflexivity.
Defined.

(** X9. In a run that completes, the frame of word [k] is drawn over the
    background whose index the scheduler holds after [k] advances of the
    average duration, counted from the state in which the first word is
    drawn (index 0, threshold [BACKGROUND_INTERVALS[0]], after the
    conditional at the head of the first iteration). *)
Theorem backgrounds_follow_the_scheduler
    (g : globals) (c : collaborators) (text font_path : string)
    (background_images : list string) (outputfile : string) (w w' : world) :
  App.text_to_video g c text font_path background_images outputfile w = (Ok tt, w')
  \/ Api.text_to_video g c text font_path background_images outputfile w = (Ok tt, w') ->
  exists evs ms t0 s1,
    trace w' = (trace w ++ evs)%list /\
    audio_len c text "en" = Some ms /\
    nth_error (BACKGROUND_INTERVALS g) 0 = Some t0 /\
    change_background (BACKGROUND_INTERVALS g) (List.length background_images)
      (mkSched 0 t0 0) = Ok s1 /\
    forall k f,
      nth_error (drawn evs) k = Some f ->
      exists sk,
        advances (BACKGROUND_INTERVALS g) (List.length background_images)
          (repeat (avg_word_duration ms (List.length (split text))) k) s1 = Ok sk /\
        nth_error background_images (current_background_index sk)
        = Some (frame_background f).
Proof.
  intros Hrun. apply text_to_video_ok_core in Hrun. destruct Hrun as (temp & Hrun).
  apply synthesize_and_assemble_ok_loop in Hrun.
  destruct Hrun as (ms & t0 & images & durations & evs & Haudio & Ht0 & Hwords
                    & Hloop & Htrace).
  pose proof Hloop as Hinv. apply frames_loop_inv in Hinv.
  destruct Hinv as (evs' & Hw & _ & new & states & Himg & _ & _ & Hstates & _
                    & Hdrawn & _).
  assert (Hevs : evs' = evs).
  { unfold logged in Hw. injection Hw as Hw. apply app_inv_head in Hw.
    symmetry. exact Hw. }
  subst evs'. cbn [app] in Himg. subst new.
  assert (Hs1 : exists s1,
            change_background (BACKGROUND_INTERVALS g)
              (List.length background_images) (mkSched 0 t0 0) = Ok s1).
  { destruct (split text) as [|word rest]; [congruence|].
    cbn [List.length active_states] in Hstates.
    destruct (change_background (BACKGROUND_INTERVALS g)
                (List.length background_images) (mkSched 0 t0 0)) as [s1|e];
      [eexists; reflexivity | discriminate]. }
  destruct Hs1 as (s1 & Hs1).
  eexists. exists ms, t0, s1.
  split; [exact Htrace|]. split; [exact Haudio|]. split; [exact Ht0|].
  split; [exact Hs1|].
  intros k f Hk.
  rewrite !drawn_app in Hk. cbn [drawn flat_map app] in Hk.
  fold (drawn evs) in Hk. rewrite Hdrawn, app_nil_r in Hk.
  exact (frames_follow_advances g c _ _ _ _ _ s1 _ _ _ _ Hloop Hs1 k f Hk).
Qed.

Lemma backgrounds_follow_the_scheduler_witness :
  exists evs,
    trace (snd (App.text_to_video App.config (studio 15000) "one two three"
                  "font.ttf" ["a.png"; "b.png"] "out.mp4" disk)) = evs /\
    map frame_background (drawn evs) = ["a.png"; "a.png"; "b.png"].
Proof.
  destruct (backgrounds_follow_the_scheduler App.config (studio 15000)
              "one two three" "font.ttf" ["a.png"; "b.png"] "out.mp4" disk
              (snd (App.text_to_video App.config (studio 15000) "one two three"
                      "font.ttf" ["a.png"; "b.png"] "out.mp4" disk)))
    as (evs & ms & t0 & s1 & Htrace & _).
  - left. reflexivity.
  - exists evs. split; [exact Htrace|].
    cbn [trace disk app] in Htrace. rewrite <- Htrace. reflexivity.
Defined.

(** X10. Whatever the outcome of a run, the frames it has drawn are those of
    the first words of the text, in word order, each over one of the
    supplied backgrounds; the video writer is only called once every word
    has its frame. *)
Theorem frames_are_drawn_in_word_order
    (g : globals) (c : collaborators) (text font_path : string)
    (background_images : list string) (outputfile : string) (w : world) :
  let shape (run : result unit * world) :=
    exists evs rest,
      trace (snd run) = (trace w ++ evs)%list /\
      split text = (map frame_word (drawn evs) ++ rest)%list /\
      Forall (fun f => In (frame_background f) background_images) (drawn evs) /\
      (written evs <> [] -> rest = []) in
  shape (App.text_to_video g c text font_path background_images outputfile w) /\
  shape (Api.text_to_video g c text font_path background_images outputfile w).
Proof.
  intros shape.
  assert (Hcore : forall temp,
            shape (synthesize_and_assemble g c temp text font_path
                     background_images outputfile w)).
  { intros temp. unfold shape. rewrite synthesize_and_assemble_eq.
    destruct (negb (mem font_path (fs w) && font_loads c font_path (FONT_SIZE g))).
    { exists [EvTruetype font_path (FONT_SIZE g)], (split text).
      cbn [snd trace logged drawn written flat_map app].
      repeat split; [constructor | congruence]. }
    destruct (negb (tts_accepts c text "en")).
    { exists [EvTruetype font_path (FONT_SIZE g); EvSpeech text "en"], (split text).
      cbn [snd trace logged drawn written flat_map app].
      repeat split; [constructor | congruence]. }
    destruct (negb (tts_saves c text "en")).
    { exists [EvTruetype font_path (FONT_SIZE g); EvSpeech text "en"; EvSave temp],
             (split text).
      cbn [snd trace logged drawn written flat_map app].
      repeat split; [constructor | congruence]. }
    cbv zeta.
    assert (Hquiet : forall rest,
              split text = rest ->
              exists evs rest0,
                trace (world_after_speech g temp text font_path w)
                = (trace w ++ evs)%list /\
                rest = (map frame_word (drawn evs) ++ rest0)%list /\
                Forall (fun f => In (frame_background f) background_images)
                  (drawn evs) /\
                (written evs <> [] -> rest0 = [])).
    { intros rest _.
      exists [EvTruetype font_path (FONT_SIZE g); EvSpeech text "en"; EvSave temp;
              EvFromFile temp], rest.
      cbn [trace world_after_speech drawn written flat_map app].
      repeat split; [constructor | congruence]. }
    destruct (audio_len c text "en") as [ms|].
    2:{ cbn [snd]. apply Hquiet. reflexivity. }
    destruct (split text) as [|word rest] eqn:Hwords.
    { cbn [snd]. apply Hquiet. reflexivity. }
    destruct (nth_error (BACKGROUND_INTERVALS g) 0) as [t0|].
    2:{ cbn [snd]. apply Hquiet. reflexivity. }
    clear Hquiet.
    match goal with
    | |- context [match ?loop with _ => _ end] =>
        destruct loop as [[[images durations]|e0] w3] eqn:Hl
    end; apply frames_loop_any in Hl;
      destruct Hl as (evs & rest' & -> & Hwritten & Hsplit & Hbgs & Hrest).
    - subst rest'.
      destruct (mux_writes c images durations temp).
      + exists ([EvTruetype font_path (FONT_SIZE g); EvSpeech text "en";
                 EvSave temp; EvFromFile temp] ++ evs
                ++ [EvAudioFileClip temp;
                    EvWriteVideofile images durations (TEXT_SPEED g) outputfile
                      "libx264"; EvRemove temp])%list, [].
        split.
        { cbn [snd trace logged world_after_speech]. rewrite <- !app_assoc.
          reflexivity. }
        rewrite !drawn_app. cbn [drawn flat_map app]. fold (drawn evs).
        rewrite !app_nil_r. rewrite app_nil_r in Hsplit.
        split; [exact Hsplit|]. split; [exact Hbgs | reflexivity].
      + exists ([EvTruetype font_path (FONT_SIZE g); EvSpeech text "en";
                 EvSave temp; EvFromFile temp] ++ evs
                ++ [EvAudioFileClip temp;
                    EvWriteVideofile images durations (TEXT_SPEED g) outputfile
                      "libx264"])%list, [].
        split.
        { cbn [snd trace logged with_files world_after_speech].
          rewrite <- !app_assoc. reflexivity. }
        rewrite !drawn_app. cbn [drawn flat_map app]. fold (drawn evs).
        rewrite !app_nil_r. rewrite app_nil_r in Hsplit.
        split; [exact Hsplit|]. split; [exact Hbgs | reflexivity].
    - exists ([EvTruetype font_path (FONT_SIZE g); EvSpeech text "en";
               EvSave temp; EvFromFile temp] ++ evs)%list, rest'.
      split.
      { cbn [snd trace logged world_after_speech]. rewrite <- !app_assoc.
        reflexivity. }
      rewrite !drawn_app, !written_app. cbn [drawn written flat_map app].
      fold (drawn evs). fold (written evs).
      split; [exact Hsplit|]. split; [exact Hbgs|].
      rewrite Hwritten. congruence. }
  split; [apply (Hcore App.temp_audio_path)|].
  unfold shape.
  rewrite (Api_text_to_video_eq g c (Api.temp_audio_path g)) by reflexivity.
  destruct (mem font_path (fs w)).
  - apply (Hcore (Api.temp_audio_path g)).
  - exists [], (split text). cbn [snd drawn written flat_map app map].
    rewrite app_nil_r. repeat split; [constructor | congruence].
Qed.

(** ** More on the scheduler *)

Lemma advance_invariants (intervals : list Z) (n : nat) (d : float) (s s' : sched) :
  advance intervals n d s = Ok s' ->
  ((current_background_index s < n)%nat ->
   (current_background_index s' < n)%nat) /\
  ((forall t, In t intervals -> 0 <= t) ->
   background_change_time s <= background_change_time s').
Proof.
  intros Hstep.
  destruct (Nat.eq_dec n O) as [->|Hn].
  - split; [lia|]. intros _.
    unfold advance, change_background in Hstep.
    destruct (float_ge_int _ _); [discriminate|].
    injection Hstep as <-. cbn. lia.
  - rewrite advance_eq in Hstep by exact Hn. cbv zeta in Hstep.
    destruct (float_ge_int (PrimFloat.add (image_duration s) d)
                (background_change_time s)); injection Hstep as <-;
      cbn [current_background_index background_change_time add_duration].
    + split.
      * intros _. apply Nat.mod_upper_bound. exact Hn.
      * intros Hpos.
        destruct (((current_background_index s + 1) mod n <? List.length intervals)%nat)
          eqn:Hin; [|lia].
        apply Nat.ltb_lt in Hin.
        assert (0 <= nth ((current_background_index s + 1) mod n) intervals 0).
        { apply Hpos. apply nth_In. exact Hin. }
        lia.
    + split; [auto | intros _; lia].
Qed.

(** X11. Two invariants of the scheduler along any sequence of advances:
    an index within the list of backgrounds stays within it, and, the
    configured intervals being non-negative, the threshold never decreases
    (while the elapsed time restarts at 0 at every switch). *)
Theorem scheduler_invariants
    (intervals : list Z) (n : nat) (ds : list float) (s s' : sched) :
  advances intervals n ds s = Ok s' ->
  ((current_background_index s < n)%nat ->
   (current_background_index s' < n)%nat) /\
  ((forall t, In t intervals -> 0 <= t) ->
   background_change_time s <= background_change_time s').
Proof.
  revert s. induction ds as [|d ds IH]; intros s Hrun; cbn in Hrun.
  - injection Hrun as <-. split; [auto | intros _; lia].
  - destruct (advance intervals n d s) as [s1|e] eqn:Hstep; [|discriminate].
    destruct (advance_invariants _ _ _ _ _ Hstep) as [Hidx Hthr].
    destruct (IH s1 Hrun) as [Hidx' Hthr'].
    split; [auto|]. intros Hpos. specialize (Hthr Hpos). specialize (Hthr' Hpos). lia.
Qed.

Lemma scheduler_invariants_witness :
  (3 < 5)%nat /\ 10 <= 67.
Proof.
  destruct (scheduler_invariants [10; 22; 35] 5 (repeat 5%float 23) start
              (mkSched 3 67 0)) as [Hidx Hthr].
  - reflexivity.
  - split.
    + apply Hidx. cbn. lia.
    + apply Hthr. intros t [<-|[<-|[<-|[]]]]; lia.
Defined.

(** ** The request handlers *)

Lemma allowed_file_total (name : string) :
  exists verdict, allowed_file name = Ok verdict.
Proof.
  unfold allowed_file, rsplit1.
  destruct (contains "."%char name) eqn:Hdot; [|eexists; reflexivity].
  destruct (rsplit_last "."%char name) as [[stem ext]|] eqn:Hsplit.
  - eexists. reflexivity.
  - apply rsplit_last_None in Hsplit. congruence.
Qed.

Section HandlerFacts.
Variable b : web.

(** The test [file and allowed_file(file.filename)] is the verdict of
    [allowed_file] alone: an empty filename is refused by both. *)
Lemma truthy_and_allowed_eq (u : upload) (w : world) :
  truthy_and_allowed u w = (Done (accepted u), w).
Proof.
  unfold truthy_and_allowed, accepted.
  destruct (String.eqb (filename u) "") eqn:E.
  - apply String.eqb_eq in E. rewrite E. reflexivity.
  - unfold call, lift.
    destruct (allowed_file_total (filename u)) as (verdict & ->). reflexivity.
Qed.

Lemma read_text_eq (u : upload) (w : world) :
  read_text b u w =
    if accepted u then
      match decoded u with
      | Some text => (Done (Some text), w)
      | None => (Failed UnicodeDecodeError, w)
      end
    else (Done None, w).
Proof.
  unfold read_text, wbind. rewrite truthy_and_allowed_eq.
  destruct (accepted u); [|reflexivity].
  destruct (decoded u); reflexivity.
Qed.

Lemma save_under_eq (folder : string) (u : upload) (w : world) :
  save_under b folder u w =
    if saves b (save_path b folder u)
    then (Done (save_path b folder u), with_files [save_path b folder u] w)
    else (Failed SaveError, w).
Proof.
  unfold save_under, save, wbind, wret, wfail, call, create, save_path.
  destruct (saves b (os_path_join folder (secure_filename b (filename u))));
    reflexivity.
Qed.

(** The loop over the images, whatever its outcome. *)
Lemma save_images_inv (folder : string) (image_files : list upload) :
  forall (acc : list string) (w : world) (r : outcome (list string)) (w' : world),
    save_images b folder image_files acc w = (r, w') ->
    exists saved,
      w' = with_files saved w /\
      match r with
      | Done paths =>
          saved = map (save_path b folder) (filter accepted image_files) /\
          paths = (acc ++ saved)%list
      | Failed e =>
          e = SaveError /\
          exists u, In u image_files /\ accepted u = true /\
                    saves b (save_path b folder u) = false
      end.
Proof.
  induction image_files as [|image rest IH]; intros acc w r w' Hrun.
  - cbn in Hrun. unfold wret in Hrun. injection Hrun as <- <-.
    exists []. rewrite with_files_nil, app_nil_r. repeat split.
  - cbn [save_images] in Hrun. unfold wbind at 1 in Hrun.
    rewrite truthy_and_allowed_eq in Hrun. cbn [filter].
    destruct (accepted image) eqn:Hacc.
    + unfold wbind in Hrun. rewrite save_under_eq in Hrun.
      destruct (saves b (save_path b folder image)) eqn:Hsave.
      * apply IH in Hrun. destruct Hrun as (saved & -> & Hr).
        exists (save_path b folder image :: saved). split; [reflexivity|].
        destruct r as [paths|e].
        -- destruct Hr as [-> ->]. split; [reflexivity|].
           rewrite <- app_assoc. reflexivity.
        -- destruct Hr as [-> (u & Hin & Hu & Hs)]. split; [reflexivity|].
           exists u. split; [right; exact Hin | split; assumption].
      * injection Hrun as <- <-. exists []. rewrite with_files_nil.
        split; [reflexivity|]. split; [reflexivity|].
        exists image. split; [left; reflexivity | split; assumption].
    + apply IH in Hrun. destruct Hrun as (saved & -> & Hr).
      exists saved. split; [reflexivity|].
      destruct r as [paths|e]; [exact Hr|].
      destruct Hr as [-> (u & Hin & Hu & Hs)]. split; [reflexivity|].
      exists u. split; [right; exact Hin | split; assumption].
Qed.
End HandlerFacts.

Lemma save_images_all_saved
    (b : web) (folder : string) (image_files : list upload)
    (acc : list string) (w : world) :
  (forall u, In u image_files -> accepted u = true ->
             saves b (save_path b folder u) = true) ->
  save_images b folder image_files acc w
  = (Done (acc ++ map (save_path b folder) (filter accepted image_files))%list,
     with_files (map (save_path b folder) (filter accepted image_files)) w).
Proof.
  intros Hsaves.
  destruct (save_images b folder image_files acc w) as [r w'] eqn:Hrun.
  apply save_images_inv in Hrun. destruct Hrun as (saved' & -> & Hr).
  destruct r as [paths|e].
  - destruct Hr as [-> ->]. reflexivity.
  - destruct Hr as [_ (u & Hin & Hu & Hs)].
    rewrite (Hsaves u Hin Hu) in Hs. discriminate Hs.
Qed.

(** X13. The loop over the uploaded images keeps the accepted ones and
    drops the others without a word: when every accepted image can be saved,
    the list of backgrounds it builds is the saved paths of the accepted
    images, in the order of upload, appended to the list it started from,
    and exactly these paths were created. *)
Theorem save_images_keeps_accepted
    (b : web) (folder : string) (image_files : list upload)
    (acc : list string) (w : world) :
  (forall u, In u image_files -> accepted u = true ->
             saves b (save_path b folder u) = true) ->
  let saved := map (save_path b folder) (filter accepted image_files) in
  save_images b folder image_files acc w
  = (Done (acc ++ saved)%list, with_files saved w).
Proof.
  intros Hsaves saved.
  destruct (save_images b folder image_files acc w) as [r w'] eqn:Hrun.
  apply save_images_inv in Hrun. destruct Hrun as (saved' & -> & Hr).
  destruct r as [paths|e].
  - destruct Hr as [-> ->]. reflexivity.
  - destruct Hr as [_ (u & Hin & Hu & Hs)].
    rewrite (Hsaves u Hin Hu) in Hs. discriminate Hs.
Qed.

Lemma save_images_keeps_accepted_witness :
  save_images plain_web "uploads" (getlist "images[]" (files sample_request)) []
    {| fs := []; trace := [] |}
  = (Done ["uploads/a.png"; "uploads/b.JPG"],
     {| fs := ["uploads/b.JPG"; "uploads/a.png"]; trace := [] |}).
Proof.
  rewrite (save_images_keeps_accepted plain_web "uploads"
             (getlist "images[]" (files sample_request)) []
             {| fs := []; trace := [] |}).
  - reflexivity.
  - intros u _ _. reflexivity.
Defined.

Lemma has_file_getlist (key : string) (fields : list (string * upload)) :
  has_file key fields = true -> exists u rest, getlist key fields = u :: rest.
Proof.
  unfold has_file, getlist. induction fields as [|[k u] fields IH]; cbn.
  - discriminate.
  - destruct (String.eqb key k); cbn.
    + intros _. eexists. eexists. reflexivity.
    + exact IH.
Qed.

Lemma getlist_has_file (key : string) (fields : list (string * upload))
    (u : upload) (rest : list upload) :
  getlist key fields = u :: rest -> has_file key fields = true.
Proof.
  unfold has_file, getlist. induction fields as [|[k v] fields IH]; cbn.
  - discriminate.
  - destruct (String.eqb key k); cbn; [reflexivity | exact IH].
Qed.

(** X14. A request that is not a POST gets the upload form, and a POST that
    lacks one of the fields [text_file], [font_file], [images[]] gets
    ['Missing files', 400]; in both cases, in both versions, nothing is
    saved and [text_to_video] is not called: the world is unchanged. *)
Theorem upload_needs_post_and_fields
    (g : globals) (c : collaborators) (b : web) (req : request) (w : world) :
  (method req <> "POST" ->
   AppRoutes.upload_file g c b req w = (Done Form, w) /\
   ApiRoutes.upload_file g c b req w = (Done Form, w)) /\
  (method req = "POST" ->
   has_file "text_file" (files req) = false \/
   has_file "font_file" (files req) = false \/
   has_file "images[]" (files req) = false ->
   AppRoutes.upload_file g c b req w = (Done (Body "Missing files" 400), w) /\
   ApiRoutes.upload_file g c b req w = (Done (Body "Missing files" 400), w)).
Proof.
  split.
  - intros Hget. apply String.eqb_neq in Hget.
    unfold AppRoutes.upload_file, ApiRoutes.upload_file, wbind, try_except.
    rewrite Hget. split; reflexivity.
  - intros Hpost Hmissing.
    assert (Hcond : (negb (has_file "text_file" (files req))
                     || negb (has_file "font_file" (files req))
                     || negb (has_file "images[]" (files req)))%bool = true).
    { destruct Hmissing as [-> | [-> | ->]]; cbn;
        rewrite ?orb_true_r; reflexivity. }
    unfold AppRoutes.upload_file, ApiRoutes.upload_file, wbind, try_except.
    rewrite Hpost, Hcond. split; reflexivity.
Qed.

Lemma upload_needs_post_and_fields_witness :
  ApiRoutes.upload_file (Api.config "/tmp") (studio 6000) plain_web
    {| method := "POST";
       files := [("text_file", mkUpload "story.txt" (Some "one two"));
                 ("font_file", mkUpload "font.ttf" None)] |} disk
  = (Done (Body "Missing files" 400), disk).
Proof.
  destruct (upload_needs_post_and_fields (Api.config "/tmp") (studio 6000)
              plain_web
              {| method := "POST";
                 files := [("text_file", mkUpload "story.txt" (Some "one two"));
                           ("font_file", mkUpload "font.ttf" None)] |} disk)
    as [_ H].
  apply H; [reflexivity|]. right. right. reflexivity.
Defined.

Ltac enter_post Hpost Htf Hff Himg :=
  unfold AppRoutes.upload_file, ApiRoutes.upload_file;
  rewrite Hpost;
  cbn [String.eqb Ascii.eqb Bool.eqb andb];
  rewrite (getlist_has_file _ _ _ _ Htf), (getlist_has_file _ _ _ _ Hff), Himg;
  cbn [negb orb];
  unfold wbind, try_except, getitem;
  rewrite Htf, Hff;
  unfold wret at 1 2.

(** X15. An upload whose text file is refused by [allowed_file] (the font
    and the images being accepted and saved) still saves the font and the
    images; only then does the call of [text_to_video] read the unassigned
    [text_content]. [src/app.py] raises [UnboundLocalError]; [src/api/app.py]
    answers 500 with that error. [text_to_video] is not entered. *)
Theorem refused_text_file_is_an_unbound_local
    (g : globals) (c : collaborators) (b : web) (req : request) (w : world)
    (text_file font_file : upload) (texts fonts : list upload) :
  method req = "POST" ->
  getlist "text_file" (files req) = text_file :: texts ->
  getlist "font_file" (files req) = font_file :: fonts ->
  has_file "images[]" (files req) = true ->
  accepted text_file = false ->
  accepted font_file = true ->
  saves b (save_path b (UPLOAD_FOLDER g) font_file) = true ->
  (forall u, In u (getlist "images[]" (files req)) -> accepted u = true ->
             saves b (save_path b (UPLOAD_FOLDER g) u) = true) ->
  let saved :=
    save_path b (UPLOAD_FOLDER g) font_file
    :: map (save_path b (UPLOAD_FOLDER g))
         (filter accepted (getlist "images[]" (files req))) in
  AppRoutes.upload_file g c b req w
  = (Failed (UnboundLocalError "text_content"), with_files saved w) /\
  ApiRoutes.upload_file g c b req w
  = (Done (ErrorBody (UnboundLocalError "text_content") 500), with_files saved w).
Proof.
  intros Hpost Htf Hff Himg Hrej Hfont Hsave Hsaves saved.
  split; enter_post Hpost Htf Hff Himg;
    rewrite read_text_eq, Hrej;
    rewrite truthy_and_allowed_eq, Hfont;
    rewrite save_under_eq, Hsave; unfold wret at 1;
    rewrite save_images_all_saved by exact Hsaves; reflexivity.
Qed.

Lemma refused_text_file_is_an_unbound_local_witness :
  AppRoutes.upload_file App.config (studio 6000) plain_web
    {| method := "POST";
       files := [("text_file", mkUpload "story.doc" (Some "one two"));
                 ("font_file", mkUpload "font.ttf" None);
                 ("images[]", mkUpload "a.png" None)] |}
    {| fs := []; trace := [] |}
  = (Failed (UnboundLocalError "text_content"),
     {| fs := ["uploads/a.png"; "uploads/font.ttf"]; trace := [] |}).
Proof.
  destruct (refused_text_file_is_an_unbound_local App.config (studio 6000)
              plain_web
              {| method := "POST";
                 files := [("text_file", mkUpload "story.doc" (Some "one two"));
                           ("font_file", mkUpload "font.ttf" None);
                           ("images[]", mkUpload "a.png" None)] |}
              {| fs := []; trace := [] |}
              (mkUpload "story.doc" (Some "one two")) (mkUpload "font.ttf" None)
              [] [])
    as [H _]; [reflexivity .. | exact H].
Defined.

(** X16. A POST that carries the three fields and whose font file is
    refused by [allowed_file].
    [src/api/app.py] saves nothing and answers ['Invalid font file', 400],
    unless the text file is accepted and is not UTF-8: the decoding, which
    comes first, has then raised, and the answer is 500 with that error.
    [src/app.py] has no such branch. An accepted text file that is not
    UTF-8 raises [UnicodeDecodeError] before anything is saved. Otherwise
    the handler goes on to save the accepted images (every one of them
    being saved) and raises [UnboundLocalError] when it reads the arguments
    of [text_to_video]: on [text_content] when the text file was refused
    too, on [font_path] when it was accepted. [text_to_video] is not
    entered. *)
Theorem refused_font_file
    (g : globals) (c : collaborators) (b : web) (req : request) (w : world)
    (text_file font_file : upload) (texts fonts : list upload) :
  method req = "POST" ->
  getlist "text_file" (files req) = text_file :: texts ->
  getlist "font_file" (files req) = font_file :: fonts ->
  has_file "images[]" (files req) = true ->
  accepted font_file = false ->
  let saved := map (save_path b (UPLOAD_FOLDER g))
                 (filter accepted (getlist "images[]" (files req))) in
  ApiRoutes.upload_file g c b req w
  = (Done (if accepted text_file then
             match decoded text_file with
             | Some _ => Body "Invalid font file" 400
             | None => ErrorBody UnicodeDecodeError 500
             end
           else Body "Invalid font file" 400), w) /\
  ((forall u, In u (getlist "images[]" (files req)) -> accepted u = true ->
              saves b (save_path b (UPLOAD_FOLDER g) u) = true) ->
   AppRoutes.upload_file g c b req w
   = if accepted text_file then
       match decoded text_file with
       | Some _ => (Failed (UnboundLocalError "font_path"), with_files saved w)
       | None => (Failed UnicodeDecodeError, w)
       end
     else (Failed (UnboundLocalError "text_content"), with_files saved w)).
Proof.
  intros Hpost Htf Hff Himg Hrej saved.
  split.
  - enter_post Hpost Htf Hff Himg.
    rewrite read_text_eq.
    destruct (accepted text_file).
    + destruct (decoded text_file) as [text|]; [|reflexivity].
      rewrite truthy_and_allowed_eq, Hrej. reflexivity.
    + rewrite truthy_and_allowed_eq, Hrej. reflexivity.
  - intros Hsaves. enter_post Hpost Htf Hff Himg.
    rewrite read_text_eq.
    destruct (accepted text_file).
    + destruct (decoded text_file) as [text|]; [|reflexivity].
      rewrite truthy_and_allowed_eq, Hrej. unfold wret at 1.
      rewrite save_images_all_saved by exact Hsaves. reflexivity.
    + rewrite truthy_and_allowed_eq, Hrej. unfold wret at 1.
      rewrite save_images_all_saved by exact Hsaves. reflexivity.
Qed.

Lemma refused_font_file_witness :
  let post text_file :=
    {| method := "POST";
       files := [("text_file", text_file);
                 ("font_file", mkUpload "font.exe" None);
                 ("images[]", mkUpload "a.png" None)] |} in
  let empty := {| fs := []; trace := [] |} in
  let saved := {| fs := ["uploads/a.png"]; trace := [] |} in
  ApiRoutes.upload_file (Api.config "/tmp") (studio 6000) plain_web
    (post (mkUpload "story.txt" (Some "one two"))) empty
  = (Done (Body "Invalid font file" 400), empty) /\
  ApiRoutes.upload_file (Api.config "/tmp") (studio 6000) plain_web
    (post (mkUpload "story.txt" None)) empty
  = (Done (ErrorBody UnicodeDecodeError 500), empty) /\
  AppRoutes.upload_file App.config (studio 6000) plain_web
    (post (mkUpload "story.txt" (Some "one two"))) empty
  = (Failed (UnboundLocalError "font_path"), saved) /\
  AppRoutes.upload_file App.config (studio 6000) plain_web
    (post (mkUpload "story.doc" (Some "one two"))) empty
  = (Failed (UnboundLocalError "text_content"), saved).
Proof.
  cbv zeta.
  pose (post := fun text_file =>
    {| method := "POST";
       files := [("text_file", text_file);
                 ("font_file", mkUpload "font.exe" None);
                 ("images[]", mkUpload "a.png" None)] |}).
  pose (empty := {| fs := []; trace := [] |}).
  destruct (refused_font_file (Api.config "/tmp") (studio 6000) plain_web
              (post (mkUpload "story.txt" (Some "one two"))) empty
              (mkUpload "story.txt" (Some "one two")) (mkUpload "font.exe" None)
              [] [])
    as [H1 _]; [reflexivity .. |].
  destruct (refused_font_file (Api.config "/tmp") (studio 6000) plain_web
              (post (mkUpload "story.txt" None)) empty
              (mkUpload "story.txt" None) (mkUpload "font.exe" None) [] [])
    as [H2 _]; [reflexivity .. |].
  destruct (refused_font_file App.config (studio 6000) plain_web
              (post (mkUpload "story.txt" (Some "one two"))) empty
              (mkUpload "story.txt" (Some "one two")) (mkUpload "font.exe" None)
              [] [])
    as [_ H3]; [reflexivity .. |].
  destruct (refused_font_file App.config (studio 6000) plain_web
              (post (mkUpload "story.doc" (Some "one two"))) empty
              (mkUpload "story.doc" (Some "one two")) (mkUpload "font.exe" None)
              [] [])
    as [_ H4]; [reflexivity .. |].
  split; [exact H1|]. split; [exact H2|]. split.
  - apply H3. intros u _ _. reflexivity.
  - apply H4. intros u _ _. reflexivity.
Defined.

(** X17. [src/api/app.py]'s handler never lets an exception out: whatever
    the request, the collaborators and the disk, it returns a response,
    which is the form, one of the two 400 messages, a 500 carrying the
    exception that was raised, or the redirect to the download of the
    video. *)
Theorem api_upload_always_responds
    (g : globals) (c : collaborators) (b : web) (req : request) (w : world) :
  exists resp w',
    ApiRoutes.upload_file g c b req w = (Done resp, w') /\
    (resp = Form \/
     resp = Body "Missing files" 400 \/
     resp = Body "Invalid font file" 400 \/
     (exists e, resp = ErrorBody e 500) \/
     resp = Redirect "download_file"
              (os_path_join (UPLOAD_FOLDER g) (uuid4_hex b ++ ".mp4"))).
Proof.
  unfold ApiRoutes.upload_file, wbind, try_except.
  destruct (String.eqb (method req) "POST").
  2:{ eexists. eexists. split; [reflexivity|]. left. reflexivity. }
  destruct (negb (has_file "text_file" (files req))
            || negb (has_file "font_file" (files req))
            || negb (has_file "images[]" (files req)))%bool.
  { eexists. eexists. split; [reflexivity|]. right. left. reflexivity. }
  destruct (getitem "text_file" (files req) w) as [[text_file|e] w1].
  2:{ eexists. eexists. split; [reflexivity|]. do 3 right. left. eexists. reflexivity. }
  destruct (getitem "font_file" (files req) w1) as [[font_file|e] w2].
  2:{ eexists. eexists. split; [reflexivity|]. do 3 right. left. eexists. reflexivity. }
  destruct (read_text b text_file w2) as [[text_content|e] w3].
  2:{ eexists. eexists. split; [reflexivity|]. do 3 right. left. eexists. reflexivity. }
  destruct (truthy_and_allowed font_file w3) as [[[|]|e] w4].
  3:{ eexists. eexists. split; [reflexivity|]. do 3 right. left. eexists. reflexivity. }
  2:{ eexists. eexists. split; [reflexivity|]. do 2 right. left. reflexivity. }
  destruct (save_under b (UPLOAD_FOLDER g) font_file w4) as [[font_path|e] w5].
  2:{ eexists. eexists. split; [reflexivity|]. do 3 right. left. eexists. reflexivity. }
  destruct (save_images b (UPLOAD_FOLDER g) (getlist "images[]" (files req)) [] w5)
    as [[background_images|e] w6].
  2:{ eexists. eexists. split; [reflexivity|]. do 3 right. left. eexists. reflexivity. }
  destruct (local "text_content" text_content w6) as [[text|e] w7].
  2:{ eexists. eexists. split; [reflexivity|]. do 3 right. left. eexists. reflexivity. }
  destruct (call (Api.text_to_video g c text font_path background_images
                    (os_path_join (UPLOAD_FOLDER g) (uuid4_hex b ++ ".mp4"))) w7)
    as [[[]|e] w8].
  2:{ eexists. eexists. split; [reflexivity|]. do 3 right. left. eexists. reflexivity. }
  eexists. eexists. split; [reflexivity|]. do 4 right. reflexivity.
Qed.

(** Deleting nothing composes. *)
Lemma grows_refl (temp : string) (w : world) : grows temp w w.
Proof. intros p _ H. exact H. Qed.

Lemma grows_trans (temp : string) (w1 w2 w3 : world) :
  grows temp w1 w2 -> grows temp w2 w3 -> grows temp w1 w3.
Proof. intros H12 H23 p Hp H. apply H23; [exact Hp|]. apply H12; assumption. Qed.

Lemma keeps_wret {A : Type} (temp : string) (a : A) : keeps_files temp (wret a).
Proof. intros w. apply grows_refl. Qed.

Lemma keeps_wfail {A : Type} (temp : string) (e : handler_exn) :
  keeps_files temp (@wfail A e).
Proof. intros w. apply grows_refl. Qed.

Lemma keeps_wbind {A B : Type} (temp : string) (m : W A) (k : A -> W B) :
  keeps_files temp m -> (forall a, keeps_files temp (k a)) ->
  keeps_files temp (wbind m k).
Proof.
  intros Hm Hk w. unfold wbind. specialize (Hm w).
  destruct (m w) as [[a|e] w1]; cbn [snd] in *.
  - apply (grows_trans temp w w1); [exact Hm | apply Hk].
  - exact Hm.
Qed.

Lemma keeps_try_except {A : Type} (temp : string) (m : W A)
    (h : handler_exn -> W A) :
  keeps_files temp m -> (forall e, keeps_files temp (h e)) ->
  keeps_files temp (try_except m h).
Proof.
  intros Hm Hh w. unfold try_except. specialize (Hm w).
  destruct (m w) as [[a|e] w1]; cbn [snd] in *.
  - exact Hm.
  - apply (grows_trans temp w w1); [exact Hm | apply Hh].
Qed.

Lemma keeps_with_files (temp : string) (ps : list string) (w : world) :
  grows temp w (with_files ps w).
Proof. intros p _ H. apply with_files_keeps. exact H. Qed.

Lemma keeps_getitem (temp key : string) (fields : list (string * upload)) :
  keeps_files temp (getitem key fields).
Proof.
  unfold getitem. destruct (getlist key fields); [apply keeps_wfail | apply keeps_wret].
Qed.

Lemma keeps_truthy_and_allowed (temp : string) (u : upload) :
  keeps_files temp (truthy_and_allowed u).
Proof. intros w. rewrite truthy_and_allowed_eq. apply grows_refl. Qed.

Lemma keeps_read_text (temp : string) (b : web) (u : upload) :
  keeps_files temp (read_text b u).
Proof.
  intros w. rewrite read_text_eq.
  destruct (accepted u); [destruct (decoded u)|]; apply grows_refl.
Qed.

Lemma keeps_save_under (temp : string) (b : web) (folder : string) (u : upload) :
  keeps_files temp (save_under b folder u).
Proof.
  intros w. rewrite save_under_eq.
  destruct (saves b (save_path b folder u));
    [apply keeps_with_files | apply grows_refl].
Qed.

Lemma keeps_save_images (temp : string) (b : web) (folder : string)
    (image_files : list upload) (acc : list string) :
  keeps_files temp (save_images b folder image_files acc).
Proof.
  intros w.
  destruct (save_images b folder image_files acc w) as [r w'] eqn:Hrun.
  apply save_images_inv in Hrun. destruct Hrun as (saved & -> & _).
  apply keeps_with_files.
Qed.

Lemma keeps_local {A : Type} (temp name : string) (v : option A) :
  keeps_files temp (local name v).
Proof. destruct v; [apply keeps_wret | apply keeps_wfail]. Qed.

Lemma grows_synthesize_and_assemble
    (g : globals) (c : collaborators) (temp text font_path : string)
    (background_images : list string) (outputfile : string) (w : world) :
  grows temp w
    (snd (synthesize_and_assemble g c temp text font_path background_images
            outputfile w)).
Proof.
  intros p Hp Hmem.
  pose proof (synthesize_and_assemble_fs g c temp text font_path
                background_images outputfile w) as Hfs.
  cbv zeta in Hfs.
  destruct (fst (synthesize_and_assemble g c temp text font_path
                   background_images outputfile w)).
  - rewrite Hfs, mem_unlinked_neq by exact Hp.
    apply mem_created_other, mem_created_other. exact Hmem.
  - destruct Hfs as [-> | (left & ->)]; [exact Hmem|].
    apply with_files_keeps. exact Hmem.
Qed.

Lemma keeps_call_App (g : globals) (c : collaborators) (text font_path : string)
    (background_images : list string) (outputfile : string) :
  keeps_files App.temp_audio_path
    (call (App.text_to_video g c text font_path background_images outputfile)).
Proof.
  intros w. unfold call.
  pose proof (grows_synthesize_and_assemble g c App.temp_audio_path text font_path
                background_images outputfile w) as H.
  unfold App.text_to_video.
  destruct (synthesize_and_assemble g c App.temp_audio_path text font_path
              background_images outputfile w) as [[[]|e] w'];
    exact H.
Qed.

Lemma keeps_call_Api (g : globals) (c : collaborators) (text font_path : string)
    (background_images : list string) (outputfile : string) :
  keeps_files (Api.temp_audio_path g)
    (call (Api.text_to_video g c text font_path background_images outputfile)).
Proof.
  intros w. unfold call.
  rewrite (Api_text_to_video_eq g c (Api.temp_audio_path g)) by reflexivity.
  destruct (mem font_path (fs w)); [|apply grows_refl].
  pose proof (grows_synthesize_and_assemble g c (Api.temp_audio_path g) text
                font_path background_images outputfile w) as H.
  destruct (synthesize_and_assemble g c (Api.temp_audio_path g) text font_path
              background_images outputfile w) as [[[]|e] w'];
    exact H.
Qed.

(** X18. Neither handler ever deletes an uploaded file: whatever the
    request and its outcome (response or exception), every path that was on
    disk before the request, the temporary audio file apart, is still on
    disk after it. The saved font and images are left in the upload
    folder. *)
Theorem upload_never_deletes
    (g : globals) (c : collaborators) (b : web) (req : request) (w : world)
    (p : string) :
  mem p (fs w) = true ->
  (p <> App.temp_audio_path ->
   mem p (fs (snd (AppRoutes.upload_file g c b req w))) = true) /\
  (p <> Api.temp_audio_path g ->
   mem p (fs (snd (ApiRoutes.upload_file g c b req w))) = true).
Proof.
  intros Hmem.
  assert (Happ : keeps_files App.temp_audio_path (AppRoutes.upload_file g c b req)).
  { unfold AppRoutes.upload_file.
    destruct (String.eqb (method req) "POST"); [|apply keeps_wret].
    destruct (negb (has_file "text_file" (files req))
              || negb (has_file "font_file" (files req))
              || negb (has_file "images[]" (files req)))%bool;
      [apply keeps_wret|].
    apply keeps_wbind; [apply keeps_getitem | intros text_file].
    apply keeps_wbind; [apply keeps_getitem | intros font_file].
    apply keeps_wbind; [apply keeps_read_text | intros text_content].
    apply keeps_wbind; [apply keeps_truthy_and_allowed | intros font_ok].
    apply keeps_wbind.
    { destruct font_ok; [|apply keeps_wret].
      apply keeps_wbind; [apply keeps_save_under | intros q; apply keeps_wret]. }
    intros font_path.
    apply keeps_wbind; [apply keeps_save_images | intros background_images].
    apply keeps_wbind; [apply keeps_local | intros text].
    apply keeps_wbind; [apply keeps_local | intros font].
    apply keeps_wbind; [apply keeps_call_App | intros _; apply keeps_wret]. }
  assert (Hapi : keeps_files (Api.temp_audio_path g)
                   (ApiRoutes.upload_file g c b req)).
  { unfold ApiRoutes.upload_file.
    apply keeps_wbind.
    2:{ intros [resp|]; apply keeps_wret. }
    apply keeps_try_except; [|intros e; apply keeps_wret].
    destruct (String.eqb (method req) "POST"); [|apply keeps_wret].
    destruct (negb (has_file "text_file" (files req))
              || negb (has_file "font_file" (files req))
              || negb (has_file "images[]" (files req)))%bool;
      [apply keeps_wret|].
    apply keeps_wbind; [apply keeps_getitem | intros text_file].
    apply keeps_wbind; [apply keeps_getitem | intros font_file].
    apply keeps_wbind; [apply keeps_read_text | intros text_content].
    apply keeps_wbind; [apply keeps_truthy_and_allowed | intros font_ok].
    destruct font_ok; [|apply keeps_wret].
    apply keeps_wbind; [apply keeps_save_under | intros font_path].
    apply keeps_wbind; [apply keeps_save_images | intros background_images].
    apply keeps_wbind; [apply keeps_local | intros text].
    apply keeps_wbind; [apply keeps_call_Api | intros _; apply keeps_wret]. }
  split; intros Hp.
  - apply (Happ w p Hp Hmem).
  - apply (Hapi w p Hp Hmem).
Qed.

Lemma upload_never_deletes_witness :
  mem "font.ttf"
    (fs (snd (AppRoutes.upload_file App.config (studio 6000) plain_web
                sample_request disk))) = true.
Proof.
  destruct (upload_never_deletes App.config (studio 6000) plain_web
              sample_request disk "font.ttf") as [H _]; [reflexivity|].
  apply H. discriminate.
Defined.

Lemma synthesize_and_assemble_no_background
    (g : globals) (c : collaborators) (temp text font_path outputfile : string)
    (w : world) (ms t0 : Z) :
  split text <> [] ->
  mem font_path (fs w) = true ->
  font_loads c font_path (FONT_SIZE g) = true ->
  tts_accepts c text "en" = true ->
  tts_saves c text "en" = true ->
  audio_len c text "en" = Some ms ->
  nth_error (BACKGROUND_INTERVALS g) 0 = Some t0 ->
  0 < t0 ->
  synthesize_and_assemble g c temp text font_path [] outputfile w
  = (Raise IndexError, world_after_speech g temp text font_path w).
Proof.
  intros Hwords Hmem Hfont Hacc Htts Haudio Ht0 Hpos.
  rewrite synthesize_and_assemble_eq, Hmem, Hfont, Hacc, Htts, Haudio, Ht0.
  cbn [andb negb]. cbv zeta.
  destruct (split text) as [|word rest]; [congruence|].
  cbn [frames_loop].
  cbv [bind lift ret raise emit on_disk Image_open_resize index].
  rewrite change_background_idle.
  - reflexivity.
  - cbn [image_duration background_change_time]. unfold float_ge_int.
    change (Prim2SF 0) with (S754_zero false). cbv iota.
    apply Z.leb_gt. exact Hpos.
Qed.

Lemma length_append (s t : string) :
  String.length (s ++ t) = (String.length s + String.length t)%nat.
Proof. induction s as [|c s IH]; cbn; [reflexivity | rewrite IH; reflexivity]. Qed.

Lemma same_length_suffix (x y s t : string) :
  String.length s = String.length t ->
  (x ++ s)%string = (y ++ t)%string -> s = t.
Proof.
  intros Hlen. revert y. induction x as [|a x IH]; intros y H.
  - destruct y as [|d y]; [exact H|].
    apply (f_equal String.length) in H. cbn in H. rewrite length_append in H. lia.
  - destruct y as [|d y].
    + apply (f_equal String.length) in H. cbn in H. rewrite length_append in H. lia.
    + cbn in H. injection H as _ H. apply (IH y H).
Qed.

Lemma os_path_join_suffix (a b : string) :
  exists x, os_path_join a b = (x ++ b)%string.
Proof.
  assert (Hgen : exists x,
            (if (String.eqb a "" || ends_with_slash a)%bool
             then (a ++ b)%string else (a ++ "/" ++ b)%string) = (x ++ b)%string).
  { destruct (String.eqb a "" || ends_with_slash a)%bool.
    - exists a. reflexivity.
    - exists (a ++ "/")%string. rewrite append_assoc. reflexivity. }
  unfold os_path_join. destruct b as [|ch b']; [exact Hgen|].
  destruct (Ascii.eqb ch "/"%char) eqn:E.
  - apply Ascii.eqb_eq in E. subst ch. exists EmptyString. reflexivity.
  - destruct ch as [[] [] [] [] [] [] [] []]; try exact Hgen; discriminate E.
Qed.

Lemma video_is_not_the_temp_audio (folder uuid : string) :
  os_path_join folder (uuid ++ ".mp4") <> os_path_join folder "temp.mp3".
Proof.
  destruct (os_path_join_suffix folder (uuid ++ ".mp4")) as (x & ->).
  destruct (os_path_join_suffix folder "temp.mp3") as (y & ->).
  intros H.
  change "temp.mp3" with ("temp" ++ ".mp3")%string in H.
  rewrite <- !append_assoc in H.
  apply same_length_suffix in H; [discriminate H | reflexivity].
Qed.

(** X19. The whole upload, end to end. For a POST whose text, font and at
    least one image are accepted and saved, whose text decodes and has a
    word, and whose collaborators all complete, both handlers answer with
    the redirect to the download of the video, and the video file is on
    disk: in the current directory under the name uuid + ".mp4" for
    [src/app.py], under the upload folder for [src/api/app.py]. *)
Theorem upload_redirects_to_the_video
    (g : globals) (c : collaborators) (b : web) (req : request) (w : world)
    (text_file font_file : upload) (texts fonts : list upload) (text : string) :
  let font_path := save_path b (UPLOAD_FOLDER g) font_file in
  let backgrounds :=
    map (save_path b (UPLOAD_FOLDER g))
      (filter accepted (getlist "images[]" (files req))) in
  method req = "POST" ->
  getlist "text_file" (files req) = text_file :: texts ->
  getlist "font_file" (files req) = font_file :: fonts ->
  has_file "images[]" (files req) = true ->
  accepted text_file = true ->
  decoded text_file = Some text ->
  accepted font_file = true ->
  saves b font_path = true ->
  (forall u, In u (getlist "images[]" (files req)) -> accepted u = true ->
             saves b (save_path b (UPLOAD_FOLDER g) u) = true) ->
  backgrounds <> [] ->
  font_loads c font_path (FONT_SIZE g) = true ->
  tts_accepts c text "en" = true ->
  tts_saves c text "en" = true ->
  audio_len c text "en" <> None ->
  split text <> [] ->
  BACKGROUND_INTERVALS g <> [] ->
  (forall p, In p backgrounds -> image_loads c p = true) ->
  (forall images durations audio, mux_writes c images durations audio = true) ->
  (exists w',
     AppRoutes.upload_file g c b req w
     = (Done (Redirect "download_file" (uuid4_hex b ++ ".mp4")), w') /\
     mem (uuid4_hex b ++ ".mp4")%string (fs w') = true) /\
  (exists w',
     ApiRoutes.upload_file g c b req w
     = (Done (Redirect "download_file"
                (os_path_join (UPLOAD_FOLDER g) (uuid4_hex b ++ ".mp4"))), w') /\
     mem (os_path_join (UPLOAD_FOLDER g) (uuid4_hex b ++ ".mp4")) (fs w') = true).
Proof.
  intros font_path backgrounds Hpost Htf Hff Himg Hacc Hdec Hfont Hsave Hsaves
         Hne Hloads Htacc Htts Haudio Hwords Hint Hbgs Hmux.
  set (w1 := with_files backgrounds (with_files [font_path] w)).
  assert (Hfontmem : mem font_path (fs w1) = true).
  { apply with_files_keeps, with_files_holds. left. reflexivity. }
  assert (Hbgmem : forall p, In p backgrounds ->
                             mem p (fs w1) = true /\ image_loads c p = true).
  { intros p Hp. split; [apply with_files_holds; exact Hp | apply Hbgs; exact Hp]. }
  assert (Hrun : forall temp outputfile,
            outputfile <> temp ->
            exists w',
              synthesize_and_assemble g c temp text font_path backgrounds
                outputfile w1 = (Ok tt, w') /\
              mem outputfile (fs w') = true).
  { intros temp outputfile Hout.
    destruct (synthesize_and_assemble_succeeds g c temp text font_path backgrounds
                outputfile w1) as (w' & Hok); try assumption.
    exists w'. split; [exact Hok|].
    pose proof (synthesize_and_assemble_fs g c temp text font_path backgrounds
                  outputfile w1) as Hfs.
    cbv zeta in Hfs. rewrite Hok in Hfs. cbn [fst snd] in Hfs.
    rewrite Hfs, mem_unlinked_neq by exact Hout. apply mem_created. }
  split.
  - destruct (Hrun App.temp_audio_path (uuid4_hex b ++ ".mp4")%string)
      as (w' & Hok & Hout).
    { change App.temp_audio_path with (os_path_join "" "temp.mp3").
      assert (E : (uuid4_hex b ++ ".mp4")%string
                  = os_path_join "" (uuid4_hex b ++ ".mp4")).
      { destruct (os_path_join_suffix "" (uuid4_hex b ++ ".mp4")) as (x & Hx).
        unfold os_path_join in *. destruct (uuid4_hex b ++ ".mp4")%string as [|ch r];
          [reflexivity|].
        destruct ch as [[] [] [] [] [] [] [] []]; reflexivity. }
      rewrite E. apply video_is_not_the_temp_audio. }
    exists w'. split; [|exact Hout].
    enter_post Hpost Htf Hff Himg.
    rewrite read_text_eq, Hacc, Hdec.
    rewrite truthy_and_allowed_eq, Hfont.
    rewrite save_under_eq. fold font_path. rewrite Hsave. unfold wret at 1.
    rewrite save_images_all_saved by exact Hsaves.
    fold backgrounds. fold w1. cbn [app local]. unfold wret at 1 2.
    unfold call, App.text_to_video. rewrite Hok. reflexivity.
  - destruct (Hrun (Api.temp_audio_path g)
                (os_path_join (UPLOAD_FOLDER g) (uuid4_hex b ++ ".mp4")))
      as (w' & Hok & Hout).
    { apply video_is_not_the_temp_audio. }
    exists w'. split; [|exact Hout].
    enter_post Hpost Htf Hff Himg.
    rewrite read_text_eq, Hacc, Hdec.
    rewrite truthy_and_allowed_eq, Hfont.
    rewrite save_under_eq. fold font_path. rewrite Hsave.
    rewrite save_images_all_saved by exact Hsaves.
    fold backgrounds. fold w1. cbn [app local]. unfold wret at 1.
    unfold call.
    rewrite (Api_text_to_video_eq g c (Api.temp_audio_path g)) by reflexivity.
    rewrite Hfontmem, Hok. reflexivity.
Qed.

Lemma upload_redirects_to_the_video_witness :
  exists w',
    AppRoutes.upload_file App.config (studio 6000) plain_web sample_request
      {| fs := []; trace := [] |}
    = (Done (Redirect "download_file" "0123456789abcdef0123456789abcdef.mp4"), w').
Proof.
  destruct (upload_redirects_to_the_video App.config (studio 6000) plain_web
              sample_request {| fs := []; trace := [] |}
              (mkUpload "story.txt" (Some "one two three"))
              (mkUpload "font.ttf" None) [] [] "one two three")
    as [(w' & H & _) _];
    [reflexivity | reflexivity | reflexivity | reflexivity | reflexivity
    | reflexivity | reflexivity | reflexivity | intros u _ _; reflexivity
    | discriminate | reflexivity | reflexivity | reflexivity | discriminate
    | discriminate | discriminate | intros p _; reflexivity
    | intros; reflexivity | ].
  exists w'. exact H.
Defined.

(** X20. An upload none of whose images is accepted (or whose images are
    all refused by [allowed_file]) reaches [text_to_video] with an empty list
    of backgrounds: with the text and the font accepted and the speech
    synthesised, [src/app.py] raises [IndexError] out of the handler and
    [src/api/app.py] answers 500 with it; the saved font and the temporary
    audio file stay on disk. *)
Theorem upload_without_accepted_image
    (g : globals) (c : collaborators) (b : web) (req : request) (w : world)
    (text_file font_file : upload) (texts fonts : list upload) (text : string)
    (ms t0 : Z) :
  let font_path := save_path b (UPLOAD_FOLDER g) font_file in
  method req = "POST" ->
  getlist "text_file" (files req) = text_file :: texts ->
  getlist "font_file" (files req) = font_file :: fonts ->
  has_file "images[]" (files req) = true ->
  accepted text_file = true ->
  decoded text_file = Some text ->
  accepted font_file = true ->
  saves b font_path = true ->
  filter accepted (getlist "images[]" (files req)) = [] ->
  font_loads c font_path (FONT_SIZE g) = true ->
  tts_accepts c text "en" = true ->
  tts_saves c text "en" = true ->
  audio_len c text "en" = Some ms ->
  split text <> [] ->
  nth_error (BACKGROUND_INTERVALS g) 0 = Some t0 ->
  0 < t0 ->
  AppRoutes.upload_file g c b req w
  = (Failed (Raised IndexError),
     world_after_speech g App.temp_audio_path text font_path
       (with_files [font_path] w)) /\
  ApiRoutes.upload_file g c b req w
  = (Done (ErrorBody (Raised IndexError) 500),
     world_after_speech g (Api.temp_audio_path g) text font_path
       (with_files [font_path] w)).
Proof.
  intros font_path Hpost Htf Hff Himg Hacc Hdec Hfont Hsave Hnone
         Hloads Htacc Htts Haudio Hwords Ht0 Hpos.
  assert (Hfontmem : mem font_path (fs (with_files [font_path] w)) = true).
  { apply with_files_holds. left. reflexivity. }
  assert (Hsaved : forall acc w0,
            save_images b (UPLOAD_FOLDER g) (getlist "images[]" (files req)) acc w0
            = (Done acc, w0)).
  { intros acc w0.
    destruct (save_images b (UPLOAD_FOLDER g) (getlist "images[]" (files req))
                acc w0) as [r w'] eqn:Hrun.
    apply save_images_inv in Hrun. destruct Hrun as (saved & -> & Hr).
    destruct r as [paths|e].
    - destruct Hr as [-> ->]. rewrite Hnone. cbn [map].
      rewrite with_files_nil, app_nil_r. reflexivity.
    - destruct Hr as [_ (u & Hin & Hu & _)].
      assert (Hf : In u (filter accepted (getlist "images[]" (files req)))).
      { apply filter_In. split; assumption. }
      rewrite Hnone in Hf. destruct Hf. }
  split; enter_post Hpost Htf Hff Himg;
    rewrite read_text_eq, Hacc, Hdec;
    rewrite truthy_and_allowed_eq, Hfont;
    rewrite save_under_eq; fold font_path; rewrite Hsave;
    try unfold wret at 1;
    rewrite Hsaved; cbn [local]; try unfold wret at 1 2; unfold call.
  - unfold App.text_to_video.
    rewrite (synthesize_and_assemble_no_background g c App.temp_audio_path text
               font_path _ _ ms t0) by assumption.
    reflexivity.
  - rewrite (Api_text_to_video_eq g c (Api.temp_audio_path g)) by reflexivity.
    rewrite Hfontmem.
    rewrite (synthesize_and_assemble_no_background g c (Api.temp_audio_path g)
               text font_path _ _ ms t0) by assumption.
    reflexivity.
Qed.

Lemma upload_without_accepted_image_witness :
  fst (AppRoutes.upload_file App.config (studio 6000) plain_web
         {| method := "POST";
            files := [("text_file", mkUpload "story.txt" (Some "one two"));
                      ("font_file", mkUpload "font.ttf" None);
                      ("images[]", mkUpload "a.gif" None)] |}
         {| fs := []; trace := [] |})
  = Failed (Raised IndexError).
Proof.
  destruct (upload_without_accepted_image App.config (studio 6000) plain_web
              {| method := "POST";
                 files := [("text_file", mkUpload "story.txt" (Some "one two"));
                           ("font_file", mkUpload "font.ttf" None);
                           ("images[]", mkUpload "a.gif" None)] |}
              {| fs := []; trace := [] |}
              (mkUpload "story.txt" (Some "one two")) (mkUpload "font.ttf" None)
              [] [] "one two" 6000 10)
    as [H _];
    [reflexivity | reflexivity | reflexivity | reflexivity | reflexivity
    | reflexivity | reflexivity | reflexivity | reflexivity | reflexivity
    | reflexivity | reflexivity | reflexivity | discriminate | reflexivity
    | reflexivity | ].
  rewrite H. reflexivity.
Defined.

